(** * The cell-cycle state machine of [cell_type.py]

    A shallow embedding of [CellTypeAttributesMeta], [AbstractCellType] and
    [GenericCell].  The floats the code computes with (the volumes and the
    sampler's draws) are binary64 values under round-to-nearest-even ([F]);
    the readings it only compares (substance levels and thresholds) are the
    rationals they denote.  Python integers are [Z]; [cyc_len] and [g1_len]
    hold what [int()] returns on a double.  The phase tag is the Python
    string the code stores.  A method is a computation over the interpreter
    state that may raise: whatever it has assigned before the raise stays
    assigned. *)

From Stdlib Require Import ZArith QArith Qround Qabs Qpower Qreduction.
From Stdlib Require Import String List Bool Lia Lqa.
Import ListNotations.

Local Open Scope string_scope.

(** ** Binary64

    A double is a rational, an infinity or NaN; the two zeros are one value
    here, as no operation of the source tells them apart.  Every operation
    is the exact one followed by one rounding. *)

Module F.

Inductive t : Type :=
| Num (q : Q)
| Inf (negative : bool)
| NaN.

Definition pow2 (e : Z) : Q := (2 ^ e)%Q.

(** The unit roundoff [2^-53] and the largest double,
    [(2^53 - 1) * 2^971]. *)
Definition u : Q := 1 # 9007199254740992.

Definition max_int : Z := Eval vm_compute in ((2 ^ 53 - 1) * 2 ^ 971)%Z.

Definition max_double : Q := inject_Z max_int.

(** The binary exponent of a non-zero [x]: the floor of [log2 |x|]. *)
Definition ilog2 (x : Q) : Z :=
  let a := Qabs x in
  if Qle_bool 1 a then Z.log2 (Qfloor a) else (- Z.log2_up (Qceiling (/ a)))%Z.

(** The nearest integer, ties to the even one. *)
Definition rne (y : Q) : Z :=
  let f := Qfloor y in
  match ((y - inject_Z f) ?= (1 # 2))%Q with
  | Lt => f
  | Gt => (f + 1)%Z
  | Eq => if Z.even f then f else (f + 1)%Z
  end.

(** The exponent of the last place of [x]: 52 below its binary exponent,
    and never below that of the subnormals. *)
Definition quantum (x : Q) : Z := Z.max (ilog2 x - 52) (-1074).

Definition negative (q : Q) : bool := negb (Qle_bool 0 q).

(** Rounding to a double: to the nearest multiple of the quantum, and to an
    infinity when that reaches [2^1024]. *)
Definition round (x : Q) : t :=
  if Qeq_bool x 0 then Num 0
  else
    let p := quantum x in
    let v := Qred (inject_Z (rne (x / pow2 p)) * pow2 p) in
    if Qle_bool (pow2 1024) (Qabs v) then Inf (negative x) else Num v.

Definition is_zero (x : t) : bool :=
  match x with
  | Num q => Qeq_bool q 0
  | _ => false
  end.

(** [x < 0.0] *)
Definition lt0 (x : t) : bool :=
  match x with
  | Num q => negative q
  | Inf s => s
  | NaN => false
  end.

Definition add (x y : t) : t :=
  match x, y with
  | Num a, Num b => round (a + b)
  | NaN, _ | _, NaN => NaN
  | Inf s, Inf s' => if Bool.eqb s s' then Inf s else NaN
  | Inf s, Num _ | Num _, Inf s => Inf s
  end.

Definition mul (x y : t) : t :=
  match x, y with
  | Num a, Num b => round (a * b)
  | NaN, _ | _, NaN => NaN
  | Inf s, Inf s' => Inf (xorb s s')
  | Inf s, Num b | Num b, Inf s =>
      if Qeq_bool b 0 then NaN else Inf (xorb s (negative b))
  end.

Definition div (x y : t) : t :=
  match x, y with
  | Num a, Num b =>
      if Qeq_bool b 0 then (if Qeq_bool a 0 then NaN else Inf (negative a))
      else round (a / b)
  | NaN, _ | _, NaN => NaN
  | Inf _, Inf _ => NaN
  | Inf s, Num b => Inf (xorb s (negative b))
  | Num _, Inf _ => Num 0
  end.

(** [x == y] *)
Definition eqb (x y : t) : bool :=
  match x, y with
  | Num a, Num b => Qeq_bool a b
  | Inf s, Inf s' => Bool.eqb s s'
  | _, _ => false
  end.

(** [0.0 <= x] *)
Definition nonneg (x : t) : bool :=
  match x with
  | Num q => Qle_bool 0 q
  | Inf s => negb s
  | NaN => false
  end.

(** The double nearest to an integer: the integer itself up to [2^53]. *)
Definition of_int (n : Z) : t :=
  if (Z.abs n <=? 2 ^ 53)%Z then Num (inject_Z n) else round (inject_Z n).

(** The integer part, toward zero. *)
Definition trunc (q : Q) : Z := Z.quot (Qnum q) (Zpos (Qden q)).

(** [v] after [n] additions of [q], each one rounded. *)
Fixpoint grow (n : nat) (v q : t) : t :=
  match n with
  | O => v
  | S k => grow k (add v q) q
  end.

Fixpoint qpow (x : Q) (n : nat) : Q :=
  match n with
  | O => 1
  | S k => x * qpow x k
  end.

End F.

Coercion F.Num : Q >-> F.t.

(** ** The integers [int()] returns on a double

    [cyc_len] and [g1_len] are assigned in two places only (lines 35-36 and
    139-140), each time from [int(...)] of a double: an integer no larger in
    magnitude than the largest double. *)

Module DInt.

Definition fits (z : Z) : bool := (Z.abs z <=? F.max_int)%Z.

Record t : Type := make {
  to_Z : Z;
  in_range : fits to_Z = true
}.

Definition of_Z_opt (z : Z) : option t :=
  match fits z as b return fits z = b -> option t with
  | true => fun H => Some (make z H)
  | false => fun _ => None
  end eq_refl.

Definition zero : t := make 0 eq_refl.

(** A literal as a stored length, for the concrete cells below; a literal
    out of range would be read as 0. *)
Definition of_Z (z : Z) : t :=
  match of_Z_opt z with
  | Some i => i
  | None => zero
  end.

End DInt.

(** ** Python computations: state that survives a raise *)

Module Py.

Inductive exn : Type :=
| ZeroDivisionError
| TypeError (msg : string)
| ValueError (msg : string)
| OverflowError (msg : string)
| NotImplementedError (msg : string).

Inductive outcome (A : Type) : Type :=
| Returned (a : A)
| Raised (e : exn).
Arguments Returned {A} a.
Arguments Raised {A} e.

Definition t (St A : Type) : Type := St -> St * outcome A.

Definition ret {St A} (a : A) : t St A := fun s => (s, Returned a).

Definition raise {St A} (e : exn) : t St A := fun s => (s, Raised e).

Definition bind {St A B} (m : t St A) (k : A -> t St B) : t St B :=
  fun s =>
    match m s with
    | (s', Returned a) => k a s'
    | (s', Raised e) => (s', Raised e)
    end.

(** The state a computation leaves behind, whether it returned or raised. *)
Definition after {St A} (m : t St A) (s : St) : St := fst (m s).

Definition result {St A} (m : t St A) (s : St) : outcome A := snd (m s).

(** Values that reach a truth test in the source. *)
Inductive value : Type :=
| Bool (b : bool)
| BoundMethod (name : string).

(** [bool(v)]: a method object is always true. *)
Definition truthy (v : value) : bool :=
  match v with
  | Bool b => b
  | BoundMethod _ => true
  end.

(** [a or b] and [a and b] evaluate [b] only when [a] does not decide. *)
Definition or_ {St} (a b : t St value) : t St value :=
  bind a (fun x => if truthy x then ret x else b).

Definition and_ {St} (a b : t St value) : t St value :=
  bind a (fun x => if truthy x then b else ret x).

Definition not_ {St} (a : t St value) : t St value :=
  bind a (fun x => ret (Bool (negb (truthy x)))).

(** [x < y] on floats. *)
Definition Qltb (x y : Q) : bool := negb (Qle_bool y x).

(** The conversion the arithmetic operators apply to an [int] operand. *)
Definition float_of_int {St} (n : Z) : t St F.t :=
  match F.of_int n with
  | F.Inf _ => raise (OverflowError "int too large to convert to float")
  | x => ret x
  end.

(** [x / y] on two floats. *)
Definition fdiv {St} (x y : F.t) : t St F.t :=
  if F.is_zero y then raise ZeroDivisionError else ret (F.div x y).

(** [x / n] with a float numerator and an int denominator. *)
Definition truediv {St} (x : F.t) (n : Z) : t St F.t :=
  bind (float_of_int n) (fun y => fdiv x y).

(** [n / y] with an int numerator and a float denominator. *)
Definition rtruediv {St} (n : Z) (y : F.t) : t St F.t :=
  bind (float_of_int n) (fun x => fdiv x y).

(** [int(x)] on a float: truncation toward zero.  The integer part of a
    double always fits; the test guards the rationals that are no double. *)
Definition int {St} (x : F.t) : t St DInt.t :=
  match x with
  | F.Num q =>
      match DInt.of_Z_opt (F.trunc q) with
      | Some i => ret i
      | None => raise (OverflowError "cannot convert float infinity to integer")
      end
  | F.Inf _ => raise (OverflowError "cannot convert float infinity to integer")
  | F.NaN => raise (ValueError "cannot convert float NaN to integer")
  end.

End Py.

Import Py.

Declare Scope py_scope.
Delimit Scope py_scope with py.
Notation "x <- m ;; k" := (Py.bind m (fun x => k))
  (at level 61, m at next level, right associativity) : py_scope.
Notation "m ;; k" := (Py.bind m (fun _ => k))
  (at level 61, right associativity) : py_scope.
Notation "'If' c 'then' a 'else' b" :=
  (Py.bind c (fun v => if Py.truthy v then a else b))
  (at level 10, c at level 200, a at level 200, b at level 200) : py_scope.

(** ** The collaborators *)

(** Modelled from the spec: [cell_body.CellBody], imported by the source but
    not part of it.  The spec's interface gives it a substance read, a
    contact-inhibition predicate and a volume setter; the source calls the
    setter under two names ([change_vol] in [g1_phase], [change_volume] in
    [m_phase]) and both are taken to be provided. *)
Record CellBody : Type := {
  substances : string -> Q;
  contact_inhibited : bool;
  body_vol : F.t
}.

(** The process-wide [np.random] source, as the sequence of standard normal
    deviates it will hand out (finite doubles) and the number already
    consumed. *)
Record RandomState : Type := {
  gauss : nat -> Q;
  consumed : nat
}.

(** ** The data model *)

(** The class-level constants of a cell type ([GenericCell] lines 83-90). *)
Record CellType : Type := {
  seed_radius : Q;
  mean_cyc_len : Q;
  std_dev_cyc_len : Q;
  does_age : bool;
  lifespan : Z;
  g0_oxy_threshold : Q;
  hypoxia_theshold : Q
}.

(** The instance attributes assigned by [AbstractCellType.__init__]. *)
Record Cell : Type := {
  cell_body : CellBody;
  seed_vol : F.t;
  current_vol : F.t;
  cyc_len_int : DInt.t;
  g1_len_int : DInt.t;
  current_phase : string;
  current_cyc_iteration : Z;
  current_age : Z;
  is_dead : bool
}.

(** [self.cyc_len] and [self.g1_len] as integers. *)
Definition cyc_len (c : Cell) : Z := DInt.to_Z (cyc_len_int c).

Definition g1_len (c : Cell) : Z := DInt.to_Z (g1_len_int c).

(** The interpreter state a method runs in: the instance and the random
    source. *)
Record World : Type := {
  self : Cell;
  np_random : RandomState
}.

Definition GenericCell : CellType := {|
  seed_radius := 10;
  mean_cyc_len := 24;
  std_dev_cyc_len := 1;
  does_age := true;
  lifespan := 4;
  g0_oxy_threshold := 1 # 2;
  hypoxia_theshold := 1 # 4
|}.

(** *** Attribute assignment *)

Definition set_cell_body (v : CellBody) (c : Cell) : Cell :=
  {| cell_body := v; seed_vol := seed_vol c; current_vol := current_vol c;
     cyc_len_int := cyc_len_int c; g1_len_int := g1_len_int c;
     current_phase := current_phase c;
     current_cyc_iteration := current_cyc_iteration c;
     current_age := current_age c; is_dead := is_dead c |}.

Definition set_current_vol (v : F.t) (c : Cell) : Cell :=
  {| cell_body := cell_body c; seed_vol := seed_vol c; current_vol := v;
     cyc_len_int := cyc_len_int c; g1_len_int := g1_len_int c;
     current_phase := current_phase c;
     current_cyc_iteration := current_cyc_iteration c;
     current_age := current_age c; is_dead := is_dead c |}.

Definition set_cyc_len (v : DInt.t) (c : Cell) : Cell :=
  {| cell_body := cell_body c; seed_vol := seed_vol c;
     current_vol := current_vol c; cyc_len_int := v; g1_len_int := g1_len_int c;
     current_phase := current_phase c;
     current_cyc_iteration := current_cyc_iteration c;
     current_age := current_age c; is_dead := is_dead c |}.

Definition set_g1_len (v : DInt.t) (c : Cell) : Cell :=
  {| cell_body := cell_body c; seed_vol := seed_vol c;
     current_vol := current_vol c; cyc_len_int := cyc_len_int c; g1_len_int := v;
     current_phase := current_phase c;
     current_cyc_iteration := current_cyc_iteration c;
     current_age := current_age c; is_dead := is_dead c |}.

Definition set_current_phase (v : string) (c : Cell) : Cell :=
  {| cell_body := cell_body c; seed_vol := seed_vol c;
     current_vol := current_vol c; cyc_len_int := cyc_len_int c; g1_len_int := g1_len_int c;
     current_phase := v;
     current_cyc_iteration := current_cyc_iteration c;
     current_age := current_age c; is_dead := is_dead c |}.

Definition set_current_cyc_iteration (v : Z) (c : Cell) : Cell :=
  {| cell_body := cell_body c; seed_vol := seed_vol c;
     current_vol := current_vol c; cyc_len_int := cyc_len_int c; g1_len_int := g1_len_int c;
     current_phase := current_phase c;
     current_cyc_iteration := v;
     current_age := current_age c; is_dead := is_dead c |}.

Definition set_current_age (v : Z) (c : Cell) : Cell :=
  {| cell_body := cell_body c; seed_vol := seed_vol c;
     current_vol := current_vol c; cyc_len_int := cyc_len_int c; g1_len_int := g1_len_int c;
     current_phase := current_phase c;
     current_cyc_iteration := current_cyc_iteration c;
     current_age := v; is_dead := is_dead c |}.

Definition set_is_dead (v : bool) (c : Cell) : Cell :=
  {| cell_body := cell_body c; seed_vol := seed_vol c;
     current_vol := current_vol c; cyc_len_int := cyc_len_int c; g1_len_int := g1_len_int c;
     current_phase := current_phase c;
     current_cyc_iteration := current_cyc_iteration c;
     current_age := current_age c; is_dead := v |}.

Definition with_self (c : Cell) (w : World) : World :=
  {| self := c; np_random := np_random w |}.

(** [self.f] as a read, [self.f = v] as a write. *)
Definition rd {A} (f : Cell -> A) : Py.t World A :=
  fun w => (w, Returned (f (self w))).

Definition wr {A} (set : A -> Cell -> Cell) (v : A) : Py.t World unit :=
  fun w => (with_self (set v (self w)) w, Returned tt).

(** *** Calls into the cell body *)

Definition get_substance_level (name : string) : Py.t World Q :=
  rd (fun c => substances (cell_body c) name).

Definition is_contact_inhibited : Py.t World Py.value :=
  rd (fun c => Py.Bool (contact_inhibited (cell_body c))).

Definition store_body_vol (v : F.t) (c : Cell) : Cell :=
  set_cell_body {| substances := substances (cell_body c);
                   contact_inhibited := contact_inhibited (cell_body c);
                   body_vol := v |} c.

Definition change_vol (v : F.t) : Py.t World unit := wr store_body_vol v.

Definition change_volume (v : F.t) : Py.t World unit := wr store_body_vol v.

(** *** The random source *)

(** [np.random.normal(loc, scale, size=1)], the one element drawn: numpy
    rejects a negative scale, otherwise scales the next deviate and shifts
    it, in double arithmetic. *)
Definition normal (loc scale : F.t) : Py.t World F.t :=
  fun w =>
    if F.lt0 scale then (w, Raised (ValueError "scale < 0"))
    else
      let r := np_random w in
      ({| self := self w;
          np_random := {| gauss := gauss r; consumed := S (consumed r) |} |},
       Returned (F.add loc (F.mul scale (gauss r (consumed r))))).

(** *** Calling a method

    A function defined in a class body takes its positional parameters in
    order; [self.f()] passes the instance and nothing else.  A call whose
    argument count differs from the parameter count raises [TypeError]
    before the body runs; the message kept here names the function only. *)

Inductive arg : Type :=
| Instance
| Number (x : Q)
| Pair (x y : Q).

Definition def {St A} (name : string) (params : list string)
    (body : Py.t St A) (args : list arg) : Py.t St A :=
  if Nat.eqb (length args) (length params) then body
  else raise (TypeError (name ++ "(): positional arguments do not match")).

(** [self.f()] *)
Definition bound {St A} (f : list arg -> Py.t St A) : Py.t St A :=
  f [Instance].

Local Open Scope py_scope.

(** ** [AbstractCellType] and [GenericCell] *)

Section CellTypeMethods.

Variable T : CellType.

(** Lines 42-43: [def get_cyc_len(cls, self)]. *)
Definition get_cyc_len : list arg -> Py.t World DInt.t :=
  def "get_cyc_len" ["cls"; "self"]
    (x <- normal (mean_cyc_len T) (std_dev_cyc_len T) ;;
     Py.int x).

(** Lines 45-47: [def get_g1_len(self)]. *)
Definition get_g1_len : list arg -> Py.t World DInt.t :=
  def "get_g1_len" ["self"]
    (n <- rd cyc_len ;;
     mean <- Py.rtruediv n 2%Q ;;
     scale <- Py.fdiv mean 10%Q ;;
     x <- normal mean scale ;;
     Py.int x).

(** Lines 105-115. *)
Definition g1_phase : Py.t World unit :=
  i <- rd current_cyc_iteration ;;
  wr set_current_cyc_iteration (i + 1)%Z ;;
  v <- rd current_vol ;;
  sv <- rd seed_vol ;;
  n <- rd g1_len ;;
  q <- Py.truediv sv n ;;
  wr set_current_vol (F.add v q) ;;
  v <- rd current_vol ;;
  change_vol v ;;
  i <- rd current_cyc_iteration ;;
  n <- rd g1_len ;;
  if (i =? n)%Z then
    If Py.or_
         (o <- get_substance_level "oxygen" ;;
          ret (Py.Bool (Py.Qltb o (g0_oxy_threshold T))))
         is_contact_inhibited
    then wr set_current_phase "G0"
    else wr set_current_phase "S"
  else ret tt.

(** Lines 117-122. *)
Definition g0_phase : Py.t World unit :=
  If Py.and_
       (Py.not_ is_contact_inhibited)
       (o <- get_substance_level "oxygen" ;;
        ret (Py.Bool (Py.Qltb (g0_oxy_threshold T) o)))
  then
    i <- rd current_cyc_iteration ;;
    n <- rd g1_len ;;
    if (i =? n)%Z then wr set_current_phase "S"
    else wr set_current_phase "M"
  else ret tt.

(** Lines 124-130.  The second operand of [or] is the attribute
    [self.cell_body.is_contact_inhibited] itself: the method, not its
    result. *)
Definition s_phase : Py.t World unit :=
  i <- rd current_cyc_iteration ;;
  wr set_current_cyc_iteration (i + 1)%Z ;;
  i <- rd current_cyc_iteration ;;
  n <- rd cyc_len ;;
  if (i =? n - 1)%Z then
    If Py.or_
         (o <- get_substance_level "oxygen" ;;
          ret (Py.Bool (Py.Qltb o (g0_oxy_threshold T))))
         (ret (Py.BoundMethod "is_contact_inhibited"))
    then wr set_current_phase "G0"
    else wr set_current_phase "M"
  else ret tt.

(** Lines 132-133. *)
Definition g2_phase : Py.t World unit := ret tt.

(** Lines 141-144, the end of [m_phase]. *)
Definition m_phase_aging : Py.t World unit :=
  (if does_age T then
     a <- rd current_age ;; wr set_current_age (a + 1)%Z
   else ret tt) ;;
  a <- rd current_age ;;
  if (lifespan T <? a)%Z then wr set_is_dead true else ret tt.

(** Lines 135-144. *)
Definition m_phase : Py.t World unit :=
  sv <- rd seed_vol ;;
  change_volume sv ;;
  wr set_current_cyc_iteration 0%Z ;;
  n <- bound get_cyc_len ;;
  wr set_cyc_len n ;;
  n <- bound get_g1_len ;;
  wr set_g1_len n ;;
  m_phase_aging.

(** Lines 146-147. *)
Definition migrate : Py.t World unit := ret tt.

(** Lines 149-151. *)
Definition hypoxic_death : Py.t World unit :=
  o <- get_substance_level "oxygen" ;;
  if Py.Qltb o (hypoxia_theshold T) then wr set_is_dead true else ret tt.

(** Lines 95-103. *)
Definition do_cell_cycle : Py.t World unit :=
  p <- rd current_phase ;;
  if String.eqb p "G0" then g0_phase
  else if String.eqb p "G1" then g1_phase
  else if String.eqb p "S" then s_phase
  else m_phase.

(** The driver's loop on one cell: [n] ticks, stopping at the first one
    that raises. *)
Fixpoint ticks (n : nat) : Py.t World unit :=
  match n with
  | O => ret tt
  | S k => do_cell_cycle ;; ticks k
  end.

(** [n] calls of a handler in a row, each one made whether or not the
    previous call raised (the caller swallows the exception). *)
Fixpoint repeatedly (n : nat) (m : Py.t World unit) (w : World) : World :=
  match n with
  | O => w
  | S k => repeatedly k m (Py.after m w)
  end.

End CellTypeMethods.

(** ** [CellTypeAttributesMeta] *)

(** Lines 7-13. *)
Definition cell_type_attributes : list string :=
  ["seed_radius"; "mean_cyc_len"; "std_dev_cyc_len"; "does_age"; "lifespan"].

(** The attribute names an instance carries in its own [__dict__]. *)
Definition dict : Type := list string.

(** What construction sees of a class: the names bound in its body and in
    its bases (an annotation such as [seed_radius: float] binds nothing),
    the abstract methods it leaves unimplemented, and its [__init__], which
    runs on the fresh instance's [__dict__]. *)
Record class : Type := {
  namespace : list string;
  abstractmethods : list string;
  init : list arg -> Py.t dict unit
}.

Definition hasattr (cls : class) (d : dict) (name : string) : bool :=
  existsb (String.eqb name) d || existsb (String.eqb name) (namespace cls).

(** The [super().__call__] of line 16: [object.__new__] refuses a class
    with abstract methods left, then [__init__] receives the new instance
    followed by the arguments. *)
Definition type_call (cls : class) (args : list arg) : outcome dict :=
  match abstractmethods cls with
  | [] =>
      match init cls (Instance :: args) [] with
      | (d, Returned _) => Returned d
      | (_, Raised e) => Raised e
      end
  | _ :: _ => Raised (TypeError "Can't instantiate abstract class")
  end.

(** Lines 17-20: the loop over the required names. *)
Fixpoint require (attrs : list string) (cls : class) (d : dict)
    : outcome dict :=
  match attrs with
  | [] => Returned d
  | attr :: rest =>
      if hasattr cls d attr then require rest cls d
      else Raised
             (NotImplementedError ("Missing required class attribute: " ++ attr))
  end.

(** Lines 15-20: [CellTypeAttributesMeta.__call__]. *)
Definition CellTypeAttributesMeta_call (cls : class) (args : list arg)
    : outcome dict :=
  match type_call cls args with
  | Returned instance => require cell_type_attributes cls instance
  | Raised e => Raised e
  end.

Section Classes.

(** The statements of [AbstractCellType.__init__] once its three parameters
    are bound (lines 31-40).  They run on whatever object is passed as
    [self]; no call in the source reaches them. *)
Variable init_body : Py.t dict unit.

(** Line 30: [def __init__(cls, self, pos)]. *)
Definition AbstractCellType_init : list arg -> Py.t dict unit :=
  def "__init__" ["cls"; "self"; "pos"] init_body.

(** Lines 92-93: [def __init__(self): super().__init__()]. *)
Definition GenericCell_init : list arg -> Py.t dict unit :=
  def "__init__" ["self"] (bound AbstractCellType_init).

(** [GenericCell] as a class object: its constants and the eight methods it
    implements, none left abstract. *)
Definition GenericCell_class : class := {|
  namespace :=
    ["seed_radius"; "mean_cyc_len"; "std_dev_cyc_len"; "does_age"; "lifespan";
     "g0_oxy_threshold"; "hypoxia_theshold"; "__init__"; "get_cyc_len";
     "get_g1_len"; "do_cell_cycle"; "g1_phase"; "g0_phase"; "s_phase";
     "g2_phase"; "m_phase"; "migrate"; "hypoxic_death"];
  abstractmethods := [];
  init := GenericCell_init
|}.

End Classes.

(** ** Concrete cells used below *)

Definition body_at (oxygen : Q) (inhibited : bool) (v : Q) : CellBody :=
  {| substances := fun name => if String.eqb name "oxygen" then oxygen else 0;
     contact_inhibited := inhibited;
     body_vol := v |}.

Definition no_noise : RandomState := {| gauss := fun _ => 0; consumed := 0 |}.

Definition oxygen (w : World) : Q := substances (cell_body (self w)) "oxygen".

Definition inhibited (w : World) : bool := contact_inhibited (cell_body (self w)).

(** A cell in the given phase with the given counter, lengths, seed and
    current volume, oxygen reading and contact flag, not aged and alive,
    with a random source whose deviates are all 0. *)
Definition cell_at (phase : string) (iteration cycle g1 : Z) (seed vol : Q)
    (oxy : Q) (inh : bool) : World :=
  {| self := {| cell_body := body_at oxy inh vol;
                seed_vol := seed; current_vol := vol;
                cyc_len_int := DInt.of_Z cycle;
                g1_len_int := DInt.of_Z g1;
                current_phase := phase;
                current_cyc_iteration := iteration;
                current_age := 0; is_dead := false |};
     np_random := no_noise |}.

(** A cell one tick before the end of S, with oxygen at 1 and no contact
    inhibition; and the same cell one tick before the end of G1. *)
Definition ending_S : World := cell_at "S" 22 24 12 1 2 1 false.

Definition ending_G1 : World := cell_at "G1" 11 24 12 1 (23 # 12) 1 false.

(** A cell that has just entered M from G0, grown to twice its seed
    volume. *)
Definition dividing : World := cell_at "M" 23 24 12 1 2 1 false.

(** What a tick leaves alone: the constants of the current cycle, age and
    death flag, the surroundings read from the body, and the random
    source. *)
Definition frame (w w' : World) : Prop :=
  seed_vol (self w') = seed_vol (self w) /\
  cyc_len (self w') = cyc_len (self w) /\
  g1_len (self w') = g1_len (self w) /\
  current_age (self w') = current_age (self w) /\
  is_dead (self w') = is_dead (self w) /\
  substances (cell_body (self w')) = substances (cell_body (self w)) /\
  contact_inhibited (cell_body (self w'))
    = contact_inhibited (cell_body (self w)) /\
  np_random w' = np_random w.

(** The test of lines 112 and 127 as it is meant: low oxygen or contact
    inhibition. *)
Definition stressed (T : CellType) (w : World) : bool :=
  Py.Qltb (oxygen w) (g0_oxy_threshold T) || inhibited w.

(** Two types outside the source whose [__init__(self)] assigns nothing:
    one defines the five constants, the other leaves out [does_age] and
    [lifespan]. *)
Definition bare_init : list arg -> Py.t dict unit :=
  def "__init__" ["self"] (ret tt).

Definition complete_type : class := {|
  namespace :=
    ["seed_radius"; "mean_cyc_len"; "std_dev_cyc_len"; "does_age"; "lifespan";
     "__init__"];
  abstractmethods := [];
  init := bare_init
|}.

Definition ageless_type : class := {|
  namespace := ["seed_radius"; "mean_cyc_len"; "std_dev_cyc_len"; "__init__"];
  abstractmethods := [];
  init := bare_init
|}.

(** The double [get_g1_len] hands to [int()] in state [w]: the draw
    [mean + mean / 10.0 * deviate] with [mean = cyc_len / 2.0]. *)
Definition g1_draw (w : World) : F.t :=
  let mean := F.div (F.of_int (cyc_len (self w))) 2%Q in
  F.add mean
    (F.mul (F.div mean 10%Q) (gauss (np_random w) (consumed (np_random w)))).

(** Line 140 as a computation: [self.g1_len = self.get_g1_len()]. *)
Definition assign_g1_len : Py.t World unit :=
  (n <- bound get_g1_len ;; wr set_g1_len n)%py.

(** A cell at the start of a G1 of length 3 whose seed volume is the
    smallest positive double; one whose seed volume is 1; and a cell at the
    start of a G1 of length 1 whose seed volume is [2^1023]. *)
Definition faint : World :=
  cell_at "G1" 0 7 3 (F.pow2 (-1074)) (F.pow2 (-1074)) 1 false.

Definition unit_cell : World := cell_at "G1" 0 7 3 1 1 1 false.

Definition huge : World :=
  cell_at "G1" 0 7 1 (F.pow2 1023) (F.pow2 1023) 1 false.

(** The relative error allowed on the volume after a G1 of [L] ticks: one
    rounding for the increment and one for each addition, [(L + 1) * 2^-52]
    in all. *)
Definition tolerance (L : nat) : Q := inject_Z (Z.of_nat (S L)) * (2 * F.u).

(** [w] with a random source whose every deviate is [z]. *)
Definition with_deviate (z : Q) (w : World) : World :=
  {| self := self w;
     np_random := {| gauss := fun _ => z; consumed := 0 |} |}.

(** What the driver may call on a cell, and a sequence of such calls made
    one after the other, each whether or not the one before raised. *)
Inductive call : Type :=
| Tick
| Check.

Fixpoint drive (T : CellType) (calls : list call) (w : World) : World :=
  match calls with
  | [] => w
  | Tick :: rest => drive T rest (Py.after (do_cell_cycle T) w)
  | Check :: rest => drive T rest (Py.after (hypoxic_death T) w)
  end.

(** * Properties *)

(** ** Rounding

    One rounding of a number in the normal range moves it by at most the
    unit roundoff, relatively; the bound on an accumulated sum follows. *)

Module FloatFacts.

Import F.
Local Open Scope Q_scope.

Lemma rne_close (y : Q) : Qabs (inject_Z (rne y) - y) <= 1 # 2.
Proof.
  unfold rne.
  pose proof (Qfloor_le y) as Hlo. pose proof (Qlt_floor y) as Hhi.
  rewrite inject_Z_plus in Hhi. change (inject_Z 1) with 1%Q in Hhi.
  set (f := Qfloor y) in *.
  apply Qabs_Qle_condition.
  destruct ((y - inject_Z f) ?= (1 # 2)) eqn:Hc.
  - apply Qeq_alt in Hc.
    destruct (Z.even f); rewrite ?inject_Z_plus;
      change (inject_Z 1) with 1%Q; lra.
  - apply Qlt_alt in Hc. lra.
  - apply Qgt_alt in Hc. rewrite inject_Z_plus.
    change (inject_Z 1) with 1%Q. lra.
Qed.

Lemma pow2_pos (e : Z) : 0 < pow2 e.
Proof. apply Qpower_0_lt. reflexivity. Qed.

Lemma pow2_add (a b : Z) : pow2 (a + b) == pow2 a * pow2 b.
Proof. apply Qpower_plus. discriminate. Qed.

Lemma pow2_nat (k : Z) : (0 <= k)%Z -> pow2 k == inject_Z (2 ^ k).
Proof. intros H. unfold pow2. rewrite Zpower_Qpower by exact H. reflexivity. Qed.

Lemma ilog2_le (x : Q) : ~ x == 0 -> pow2 (ilog2 x) <= Qabs x.
Proof.
  intros Hx. unfold ilog2.
  assert (Ha : 0 < Qabs x).
  { destruct (Q_dec 0 x) as [[H|H]|H].
    - rewrite Qabs_pos by lra. exact H.
    - rewrite Qabs_neg by lra. lra.
    - exfalso. apply Hx. symmetry. exact H. }
  set (a := Qabs x) in *.
  destruct (Qle_bool 1 a) eqn:H1.
  - apply Qle_bool_iff in H1.
    assert (Hm : (1 <= Qfloor a)%Z).
    { change 1%Z with (Qfloor 1). apply Qfloor_resp_le. exact H1. }
    pose proof (Z.log2_spec (Qfloor a) ltac:(lia)) as [Hlog _].
    rewrite pow2_nat by apply Z.log2_nonneg.
    eapply Qle_trans; [|apply Qfloor_le].
    rewrite <- Zle_Qle. exact Hlog.
  - assert (H1' : a < 1).
    { apply Qnot_le_lt. intros H. apply Qle_bool_iff in H. congruence. }
    set (c := Qceiling (/ a)).
    assert (Hinv : 1 < / a).
    { apply (Qmult_lt_l _ _ a Ha). rewrite Qmult_inv_r by lra. lra. }
    assert (Hc : (1 < c)%Z).
    { subst c. pose proof (Qle_ceiling (/ a)) as Hle.
      rewrite Zlt_Qlt. change (inject_Z 1) with 1%Q. lra. }
    pose proof (Z.log2_up_spec c Hc) as [_ Hup].
    unfold pow2. rewrite Qpower_opp.
    fold (pow2 (Z.log2_up c)). rewrite pow2_nat by apply Z.log2_up_nonneg.
    assert (Hle : / a <= inject_Z (2 ^ Z.log2_up c)).
    { eapply Qle_trans; [apply Qle_ceiling|]. rewrite <- Zle_Qle. exact Hup. }
    set (P := inject_Z (2 ^ Z.log2_up c)) in *.
    assert (HP : 0 < P) by lra.
    apply (Qmult_le_l _ _ P HP). rewrite Qmult_inv_r by lra.
    apply (Qmult_le_l _ _ (/ a)); [lra|].
    setoid_replace (/ a * (P * a)) with (P * (a * / a)) by ring.
    rewrite Qmult_inv_r by lra. lra.
Qed.

Lemma two_u : pow2 (-52) == 2 * u.
Proof. vm_compute. reflexivity. Qed.

Lemma max_double_room : max_double + u * max_double < pow2 1024.
Proof. vm_compute. reflexivity. Qed.

Lemma quantum_small (x : Q) :
  pow2 (-1022) <= Qabs x -> pow2 (quantum x) <= 2 * u * Qabs x.
Proof.
  intros Hx.
  assert (Hne : ~ x == 0).
  { intros E. rewrite E in Hx. vm_compute in Hx. apply Hx. reflexivity. }
  pose proof (ilog2_le x Hne) as He.
  unfold quantum.
  destruct (Z.max_spec (ilog2 x - 52) (-1074)) as [[_ ->]|[_ ->]].
  - change (-1074)%Z with (-1022 + -52)%Z. rewrite pow2_add, two_u.
    pose proof (pow2_pos (-1022)). unfold u in *.
    set (a := Qabs x) in *. set (m := pow2 (-1022)) in *. lra.
  - unfold Z.sub. rewrite pow2_add. change (- (52))%Z with (-52)%Z.
    rewrite two_u.
    pose proof (pow2_pos (ilog2 x)). unfold u in *.
    set (a := Qabs x) in *. set (m := pow2 (ilog2 x)) in *. lra.
Qed.

Lemma round_close (x : Q) :
  pow2 (-1022) <= Qabs x -> Qabs x <= max_double ->
  exists v : Q, round x = Num v /\ Qabs (v - x) <= u * Qabs x.
Proof.
  intros Hlo Hhi.
  assert (Hne : ~ x == 0).
  { intros E. rewrite E in Hlo. vm_compute in Hlo. apply Hlo. reflexivity. }
  pose proof (quantum_small x Hlo) as Hq.
  unfold round.
  destruct (Qeq_bool x 0) eqn:E0; [apply Qeq_bool_iff in E0; contradiction|].
  set (p := quantum x) in *.
  set (n := rne (x / pow2 p)).
  set (v := Qred (inject_Z n * pow2 p)).
  assert (Hv : v == inject_Z n * pow2 p) by apply Qred_correct.
  pose proof (pow2_pos p) as Hp.
  assert (Hclose : Qabs (v - x) <= u * Qabs x).
  { assert (Hx : v - x == (inject_Z n - x / pow2 p) * pow2 p).
    { rewrite Hv. field. lra. }
    rewrite Hx, Qabs_Qmult, (Qabs_pos (pow2 p)) by lra.
    pose proof (rne_close (x / pow2 p)) as Hr. fold n in Hr.
    pose proof (Qabs_nonneg (inject_Z n - x / pow2 p)) as Hr0.
    set (r := Qabs (inject_Z n - x / pow2 p)) in *.
    set (a := Qabs x) in *. set (q := pow2 p) in *. unfold u in *.
    assert (r * q <= (1 # 2) * q).
    { apply Qmult_le_compat_r; lra. }
    lra. }
  exists v. split; [|exact Hclose].
  assert (Hfin : Qle_bool (pow2 1024) (Qabs v) = false).
  { destruct (Qle_bool (pow2 1024) (Qabs v)) eqn:E; [|reflexivity].
    apply Qle_bool_iff in E. exfalso.
    pose proof max_double_room as Hroom.
    apply Qabs_Qle_condition in Hclose.
    pose proof (Qabs_nonneg x) as Ha0.
    assert (Hxa : - Qabs x <= x <= Qabs x)
      by (apply Qabs_Qle_condition; apply Qle_refl).
    assert (Hva : Qabs v <= Qabs x + u * Qabs x).
    { apply Qabs_Qle_condition. unfold u in *. lra. }
    set (a := Qabs x) in *. set (M := max_double) in *.
    set (P := pow2 1024) in *. unfold u in *. lra. }
  rewrite Hfin. reflexivity.
Qed.

(** One rounding of a positive number in the normal range. *)
Lemma round_pos (x : Q) :
  pow2 (-1022) <= x -> x <= max_double ->
  exists v : Q, round x = Num v /\ x * (1 - u) <= v <= x * (1 + u).
Proof.
  intros Hlo Hhi. pose proof (pow2_pos (-1022)) as Hp.
  assert (Hx : Qabs x == x) by (apply Qabs_pos; lra).
  destruct (round_close x) as (v & Hv & Hc).
  - rewrite Hx. exact Hlo.
  - rewrite Hx. exact Hhi.
  - exists v. split; [exact Hv|]. rewrite Hx in Hc.
    apply Qabs_Qle_condition in Hc. unfold u in *. lra.
Qed.

Lemma qpow_pos (x : Q) (n : nat) : 0 < x -> 0 < qpow x n.
Proof.
  intros Hx. induction n as [|n IH]; cbn [qpow]; [reflexivity|].
  apply Qmult_lt_0_compat; assumption.
Qed.

Lemma qpow_ge_1 (x : Q) (n : nat) : 1 <= x -> 1 <= qpow x n.
Proof.
  intros Hx. induction n as [|n IH]; cbn [qpow]; [apply Qle_refl|].
  assert (0 <= qpow x n - 1) by lra. assert (0 <= x - 1) by lra.
  pose proof (Qmult_le_0_compat _ _ H0 H). lra.
Qed.

Lemma qpow_le_1 (x : Q) (n : nat) : 0 <= x -> x <= 1 -> qpow x n <= 1.
Proof.
  intros H0 H1. induction n as [|n IH]; cbn [qpow]; [apply Qle_refl|].
  assert (Hn : 0 <= qpow x n).
  { clear IH. induction n as [|n IHn]; cbn [qpow]; [discriminate|].
    apply Qmult_le_0_compat; assumption. }
  assert (A : 0 <= 1 - qpow x n) by lra.
  pose proof (Qmult_le_0_compat _ _ H0 A). lra.
Qed.

(** [(1 + u)^n] stays below 2 for every [n] up to [2^52]. *)
Lemma qpow_1u_bound (n : nat) :
  qpow (1 + u) n * (1 - inject_Z (Z.of_nat n) * u) <= 1.
Proof.
  induction n as [|n IH]; cbn [qpow].
  - vm_compute. discriminate.
  - rewrite Nat2Z.inj_succ. unfold Z.succ. rewrite inject_Z_plus.
    change (inject_Z 1) with 1%Q.
    pose proof (qpow_pos (1 + u) n ltac:(reflexivity)) as Hp.
    set (A := qpow (1 + u) n) in *. set (m := inject_Z (Z.of_nat n)) in *.
    assert (Hm : 0 <= m).
    { subst m. change 0 with (inject_Z 0). rewrite <- Zle_Qle. lia. }
    assert (E : (1 + u) * A * (1 - (m + 1) * u)
                == A * (1 - m * u) - A * ((m + 1) * u * u)) by ring.
    rewrite E.
    assert (0 <= A * ((m + 1) * u * u)).
    { apply Qmult_le_0_compat; [lra|].
      apply Qmult_le_0_compat; [|discriminate].
      apply Qmult_le_0_compat; [lra | discriminate]. }
    lra.
Qed.

Lemma qpow_1u_le_2 (n : nat) :
  (Z.of_nat n <= 2 ^ 52)%Z -> qpow (1 + u) n <= 2.
Proof.
  intros Hn. pose proof (qpow_1u_bound n) as Hb.
  pose proof (qpow_pos (1 + u) n ltac:(reflexivity)) as Hp.
  assert (Hm : inject_Z (Z.of_nat n) * u <= 1 # 2).
  { rewrite Zle_Qle in Hn.
    set (m := inject_Z (Z.of_nat n)) in *.
    assert (E : inject_Z (2 ^ 52) == 4503599627370496) by reflexivity.
    rewrite E in Hn. unfold u. lra. }
  set (A := qpow (1 + u) n) in *. set (m := inject_Z (Z.of_nat n) * u) in *.
  assert (0 <= A * ((1 # 2) - m)).
  { apply Qmult_le_0_compat; lra. }
  lra.
Qed.

Lemma room_1021 : pow2 1021 * (4 + 2 * u) <= max_double.
Proof. vm_compute. discriminate. Qed.

Lemma half_1021 : pow2 (-1022) <= pow2 (-1021) * (1 - u).
Proof. vm_compute. discriminate. Qed.

Lemma pow2_1021_max : pow2 1021 <= max_double.
Proof. vm_compute. discriminate. Qed.

Lemma pow2_1022_1021 : pow2 (-1022) <= pow2 (-1021).
Proof. vm_compute. discriminate. Qed.

Section Growth.

Variables (s d : Q) (L : nat).
Hypothesis s_pos : 0 < s.
Hypothesis s_top : s <= pow2 1021.
Hypothesis d_low : pow2 (-1022) <= d.
Hypothesis d_sum : inject_Z (Z.of_nat L) * d <= s * (1 + u).
Hypothesis L_top : (Z.of_nat L <= 2 ^ 52)%Z.

Lemma grow_bounds_gen (n : nat) :
  forall (j : nat) (v : Q),
    (j + n <= L)%nat ->
    (s + inject_Z (Z.of_nat j) * d) * qpow (1 - u) j <= v ->
    v <= (s + inject_Z (Z.of_nat j) * d) * qpow (1 + u) j ->
    exists v' : Q,
      grow n (Num v) (Num d) = Num v' /\
      (s + inject_Z (Z.of_nat (j + n)) * d) * qpow (1 - u) (j + n) <= v' /\
      v' <= (s + inject_Z (Z.of_nat (j + n)) * d) * qpow (1 + u) (j + n).
Proof.
  induction n as [|n IH]; intros j v Hj Hlo Hhi.
  - exists v. rewrite Nat.add_0_r. repeat split; assumption.
  - cbn [grow add].
    pose proof (pow2_pos (-1022)) as Hp.
    pose proof (qpow_ge_1 (1 + u) j ltac:(discriminate)) as HA1.
    pose proof (qpow_1u_le_2 j ltac:(lia)) as HA2.
    pose proof (qpow_pos (1 - u) j ltac:(reflexivity)) as Ha0.
    pose proof (qpow_le_1 (1 - u) j ltac:(discriminate) ltac:(discriminate))
      as Ha1.
    set (A := qpow (1 + u) j) in *. set (a := qpow (1 - u) j) in *.
    set (m := inject_Z (Z.of_nat j)) in *.
    assert (Hm : 0 <= m).
    { subst m. change 0 with (inject_Z 0). rewrite <- Zle_Qle. lia. }
    assert (HmL : (m + 1) * d <= inject_Z (Z.of_nat L) * d).
    { apply Qmult_le_compat_r; [|lra].
      subst m. change 1 with (inject_Z 1). rewrite <- inject_Z_plus, <- Zle_Qle.
      lia. }
    assert (HdA : d <= d * A).
    { assert (0 <= d * (A - 1)) by (apply Qmult_le_0_compat; lra). lra. }
    assert (Hda : d * a <= d).
    { assert (0 <= d * (1 - a)) by (apply Qmult_le_0_compat; lra). lra. }
    assert (HT : 0 <= s + m * d).
    { assert (0 <= m * d) by (apply Qmult_le_0_compat; lra). lra. }
    assert (HTa : 0 <= (s + m * d) * a) by (apply Qmult_le_0_compat; lra).
    assert (HTA : (s + (m + 1) * d) * A <= (s + (m + 1) * d) * 2).
    { assert (0 <= (m + 1) * d) by (apply Qmult_le_0_compat; lra).
      assert (0 <= (s + (m + 1) * d) * (2 - A))
        by (apply Qmult_le_0_compat; lra).
      lra. }
    pose proof room_1021 as Hroom.
    destruct (round_pos (v + d)) as (v1 & Hv1 & Hv1lo & Hv1hi).
    + lra.
    + set (M := max_double) in *. set (P := pow2 1021) in *. unfold u in *.
      assert (E : (s + (m + 1) * d) * A == (s + m * d) * A + d * A) by ring.
      lra.
    + rewrite Hv1.
      destruct (IH (S j) v1) as (v' & Hg & Hlo' & Hhi').
      * lia.
      * cbn [qpow]. rewrite Nat2Z.inj_succ. unfold Z.succ.
        rewrite inject_Z_plus. change (inject_Z 1) with 1%Q. fold m a.
        assert (E : (s + (m + 1) * d) * ((1 - u) * a)
                    == ((s + m * d) * a + d * a) * (1 - u)) by ring.
        rewrite E. unfold u in *. lra.
      * cbn [qpow]. rewrite Nat2Z.inj_succ. unfold Z.succ.
        rewrite inject_Z_plus. change (inject_Z 1) with 1%Q. fold m A.
        assert (E : (s + (m + 1) * d) * ((1 + u) * A)
                    == ((s + m * d) * A + d * A) * (1 + u)) by ring.
        rewrite E. unfold u in *. lra.
      * exists v'. replace (j + S n)%nat with (S j + n)%nat by lia.
        repeat split; assumption.
Qed.

End Growth.

(** [L] additions of the rounded quotient [s / L] to [s] end within a factor
    [(1 +- u)^(L + 1)] of [2 * s], for a seed in the normal range. *)
Lemma grow_doubles (s : Q) (L : nat) :
  (0 < L)%nat -> (Z.of_nat L <= 2 ^ 52)%Z ->
  inject_Z (Z.of_nat L) * pow2 (-1021) <= s -> s <= pow2 1021 ->
  exists v : Q,
    grow L (Num s) (div (Num s) (of_int (Z.of_nat L))) = Num v /\
    2 * s * qpow (1 - u) (S L) <= v /\
    v <= 2 * s * qpow (1 + u) (S L).
Proof.
  intros HL Htop Hlow Hhigh.
  set (n := inject_Z (Z.of_nat L)) in *.
  assert (Hn1 : 1 <= n).
  { subst n. change 1 with (inject_Z 1). rewrite <- Zle_Qle. lia. }
  pose proof (pow2_pos (-1021)) as Hp.
  assert (Hs : 0 < s).
  { assert (0 <= (n - 1) * pow2 (-1021)) by (apply Qmult_le_0_compat; lra).
    lra. }
  assert (Hof : of_int (Z.of_nat L) = Num n).
  { unfold of_int.
    replace (Z.abs (Z.of_nat L) <=? 2 ^ 53)%Z with true; [reflexivity|].
    symmetry. apply Z.leb_le.
    assert ((2 ^ 52 <= 2 ^ 53)%Z) by (apply Z.pow_le_mono_r; lia). lia. }
  rewrite Hof. cbn [div].
  assert (Hn0 : Qeq_bool n 0 = false).
  { destruct (Qeq_bool n 0) eqn:E; [|reflexivity].
    apply Qeq_bool_iff in E. lra. }
  rewrite Hn0.
  assert (Hq : s / n * n == s) by (field; lra).
  assert (Hq1 : pow2 (-1021) <= s / n).
  { apply (Qmult_le_r _ _ n); [lra|]. rewrite Hq. lra. }
  assert (Hq2 : s / n <= s).
  { assert (0 <= s / n) by lra.
    assert (0 <= s / n * (n - 1)) by (apply Qmult_le_0_compat; lra). lra. }
  pose proof pow2_1021_max as Hmax. pose proof pow2_1022_1021 as H21.
  pose proof half_1021 as Hhalf.
  destruct (round_pos (s / n)) as (d & Hd & Hdlo & Hdhi); [lra | lra |].
  rewrite Hd.
  assert (Hd_low : pow2 (-1022) <= d).
  { assert (0 <= (s / n - pow2 (-1021)) * (1 - u))
      by (apply Qmult_le_0_compat; [lra | discriminate]).
    lra. }
  assert (Hnd_hi : n * d <= s * (1 + u)).
  { assert (0 <= n * (s / n * (1 + u) - d))
      by (apply Qmult_le_0_compat; lra).
    assert (E : n * (s / n * (1 + u) - d) == (s / n * n) * (1 + u) - n * d)
      by ring.
    rewrite E, Hq in H. lra. }
  assert (Hnd_lo : s * (1 - u) <= n * d).
  { assert (0 <= n * (d - s / n * (1 - u)))
      by (apply Qmult_le_0_compat; lra).
    assert (E : n * (d - s / n * (1 - u)) == n * d - (s / n * n) * (1 - u))
      by ring.
    rewrite E, Hq in H. lra. }
  destruct (grow_bounds_gen s d L Hs Hhigh Hd_low Hnd_hi Htop L 0%nat s)
    as (v & Hv & Hvlo & Hvhi).
  - lia.
  - cbn [qpow Z.of_nat]. change (inject_Z 0) with 0. lra.
  - cbn [qpow Z.of_nat]. change (inject_Z 0) with 0. lra.
  - cbn [Nat.add] in *. fold n in Hvlo, Hvhi.
    exists v. split; [exact Hv|]. cbn [qpow].
    pose proof (qpow_pos (1 - u) L ltac:(reflexivity)) as Ha.
    pose proof (qpow_pos (1 + u) L ltac:(reflexivity)) as HA.
    set (a := qpow (1 - u) L) in *. set (A := qpow (1 + u) L) in *.
    split.
    + assert (0 <= (s + n * d - 2 * s * (1 - u)) * a)
        by (apply Qmult_le_0_compat; unfold u in *; lra).
      unfold u in *. lra.
    + assert (0 <= (2 * s * (1 + u) - (s + n * d)) * A)
        by (apply Qmult_le_0_compat; unfold u in *; lra).
      unfold u in *. lra.
Qed.

(** The linear forms of the two power bounds. *)
Lemma qpow_1u_linear (n : nat) :
  (Z.of_nat n <= 2 ^ 52)%Z ->
  qpow (1 + u) n <= 1 + 2 * (inject_Z (Z.of_nat n) * u).
Proof.
  intros Hn. pose proof (qpow_1u_bound n) as Hb.
  pose proof (qpow_pos (1 + u) n ltac:(reflexivity)) as Hp.
  assert (Hm : inject_Z (Z.of_nat n) * u <= 1 # 2).
  { rewrite Zle_Qle in Hn.
    assert (E : inject_Z (2 ^ 52) == 4503599627370496) by reflexivity.
    rewrite E in Hn. unfold u. lra. }
  assert (Hm0 : 0 <= inject_Z (Z.of_nat n) * u).
  { apply Qmult_le_0_compat; [|discriminate].
    change 0 with (inject_Z 0). rewrite <- Zle_Qle. lia. }
  set (A := qpow (1 + u) n) in *. set (m := inject_Z (Z.of_nat n) * u) in *.
  assert (H1 : 0 <= m * ((1 # 2) - m)) by (apply Qmult_le_0_compat; lra).
  destruct (Qlt_le_dec (1 + 2 * m) A) as [H|H]; [exfalso | exact H].
  assert (H2 : 0 < (A - (1 + 2 * m)) * (1 - m))
    by (apply Qmult_lt_0_compat; lra).
  lra.
Qed.

Lemma qpow_1mu_linear (n : nat) :
  1 - inject_Z (Z.of_nat n) * u <= qpow (1 - u) n.
Proof.
  induction n as [|n IH]; cbn [qpow].
  - vm_compute. discriminate.
  - rewrite Nat2Z.inj_succ. unfold Z.succ. rewrite inject_Z_plus.
    change (inject_Z 1) with 1%Q.
    set (a := qpow (1 - u) n) in *. set (m := inject_Z (Z.of_nat n)) in *.
    assert (Hm : 0 <= m).
    { subst m. change 0 with (inject_Z 0). rewrite <- Zle_Qle. lia. }
    assert (H1 : 0 <= (1 - u) * (a - (1 - m * u)))
      by (apply Qmult_le_0_compat; [discriminate | lra]).
    assert (H2 : 0 <= m * (u * u)).
    { apply Qmult_le_0_compat; [exact Hm | discriminate]. }
    assert (E : (1 - u) * (a - (1 - m * u))
                == (1 - u) * a - (1 - (m + 1) * u) - m * (u * u)) by ring.
    rewrite E in H1. lra.
Qed.

(** One rounding of a negative number in the normal range. *)
Lemma round_neg (x : Q) :
  x <= - pow2 (-1022) -> - max_double <= x ->
  exists v : Q, round x = Num v /\ x * (1 + u) <= v <= x * (1 - u).
Proof.
  intros Hlo Hhi. pose proof (pow2_pos (-1022)) as Hp.
  assert (Hx : Qabs x == - x) by (apply Qabs_neg; lra).
  destruct (round_close x) as (v & Hv & Hc).
  - rewrite Hx. lra.
  - rewrite Hx. lra.
  - exists v. split; [exact Hv|]. rewrite Hx in Hc.
    apply Qabs_Qle_condition in Hc. unfold u in *. lra.
Qed.

(** The doubling with a linear tolerance: a relative error of at most
    [(L + 1) * 2^-52]. *)
Lemma grow_doubles_linear (s : Q) (L : nat) :
  (0 < L)%nat -> (Z.of_nat L < 2 ^ 52)%Z ->
  inject_Z (Z.of_nat L) * pow2 (-1021) <= s -> s <= pow2 1021 ->
  exists v : Q,
    grow L (Num s) (div (Num s) (of_int (Z.of_nat L))) = Num v /\
    Qabs (v - s * 2) <= inject_Z (Z.of_nat (S L)) * (2 * u) * (s * 2).
Proof.
  intros HL Htop Hlow Hhigh.
  destruct (grow_doubles s L HL ltac:(lia) Hlow Hhigh) as (v & Hv & Hvlo & Hvhi).
  exists v. split; [exact Hv|].
  pose proof (qpow_1u_linear (S L) ltac:(lia)) as HA.
  pose proof (qpow_1mu_linear (S L)) as Ha.
  assert (Hs : 0 < s).
  { pose proof (pow2_pos (-1021)) as Hp.
    assert (1 <= inject_Z (Z.of_nat L)).
    { change 1 with (inject_Z 1). rewrite <- Zle_Qle. lia. }
    assert (0 <= (inject_Z (Z.of_nat L) - 1) * pow2 (-1021))
      by (apply Qmult_le_0_compat; lra).
    lra. }
  set (A := qpow (1 + u) (S L)) in *. set (a := qpow (1 - u) (S L)) in *.
  set (m := inject_Z (Z.of_nat (S L))) in *.
  assert (H1 : 0 <= 2 * s * (a - (1 - m * u)))
    by (apply Qmult_le_0_compat; lra).
  assert (H2 : 0 <= 2 * s * (1 + 2 * (m * u) - A))
    by (apply Qmult_le_0_compat; lra).
  assert (Hm : 0 <= m).
  { subst m. change 0 with (inject_Z 0). rewrite <- Zle_Qle. lia. }
  assert (H3 : 0 <= m * s) by (apply Qmult_le_0_compat; lra).
  apply Qabs_Qle_condition. unfold u in *. split; lra.
Qed.

Lemma rne_nonneg (y : Q) : 0 <= y -> (0 <= rne y)%Z.
Proof.
  intros Hy. unfold rne.
  assert (Hf : (0 <= Qfloor y)%Z).
  { change 0%Z with (Qfloor 0). apply Qfloor_resp_le. exact Hy. }
  destruct (y - inject_Z (Qfloor y) ?= 1 # 2); [destruct (Z.even _)| |]; lia.
Qed.

(** Rounding keeps a number that is not negative so. *)
Lemma round_nonneg (x : Q) : 0 <= x -> nonneg (round x) = true.
Proof.
  intros Hx. unfold round.
  destruct (Qeq_bool x 0); [reflexivity|].
  set (p := quantum x).
  assert (Hv : 0 <= Qred (inject_Z (rne (x / pow2 p)) * pow2 p)).
  { rewrite Qred_correct. pose proof (pow2_pos p) as Hp.
    apply Qmult_le_0_compat; [|lra].
    change 0 with (inject_Z 0). rewrite <- Zle_Qle. apply rne_nonneg.
    apply Qle_shift_div_l; lra. }
  destruct (Qle_bool (pow2 1024) _).
  - cbn [nonneg]. unfold negative. apply Qle_bool_iff in Hx. rewrite Hx.
    reflexivity.
  - cbn [nonneg]. apply Qle_bool_iff. exact Hv.
Qed.

Lemma div_nonneg (x : t) (c : Q) :
  nonneg x = true -> 0 < c -> nonneg (div x (Num c)) = true.
Proof.
  intros Hx Hc.
  assert (Hc0 : Qeq_bool c 0 = false).
  { destruct (Qeq_bool c 0) eqn:E; [|reflexivity].
    apply Qeq_bool_iff in E. lra. }
  assert (Hneg : negative c = false).
  { unfold negative. assert (H : 0 <= c) by lra.
    apply Qle_bool_iff in H. rewrite H. reflexivity. }
  destruct x as [a|s|]; cbn [nonneg div] in *.
  - rewrite Hc0. apply round_nonneg. apply Qle_bool_iff in Hx.
    apply Qle_shift_div_l; lra.
  - rewrite Hneg, xorb_false_r. exact Hx.
  - discriminate.
Qed.

Lemma nonneg_lt0 (x : t) : nonneg x = true -> lt0 x = false.
Proof.
  destruct x as [a|s|]; cbn [nonneg lt0]; unfold negative.
  - intros ->. reflexivity.
  - destruct s; [discriminate | reflexivity].
  - reflexivity.
Qed.

(** ** Rounding anywhere below the overflow threshold

    Down among the subnormals the error of a rounding is no longer
    relative: it is at most half the smallest quantum, [2^-1075]. *)

Lemma quantum_bound (x : Q) :
  ~ x == 0 -> pow2 (quantum x) <= 2 * u * Qabs x + pow2 (-1074).
Proof.
  intros Hne. pose proof (ilog2_le x Hne) as He.
  pose proof (Qabs_nonneg x) as Ha. pose proof (pow2_pos (-1074)) as Hp.
  unfold quantum.
  destruct (Z.max_spec (ilog2 x - 52) (-1074)) as [[_ ->]|[_ ->]].
  - unfold u. set (a := Qabs x) in *. set (m := pow2 (-1074)) in *. lra.
  - unfold Z.sub. rewrite pow2_add. change (- (52))%Z with (-52)%Z.
    rewrite two_u.
    pose proof (pow2_pos (ilog2 x)). unfold u in *.
    set (a := Qabs x) in *. set (m := pow2 (ilog2 x)) in *.
    set (h := pow2 (-1074)) in *. lra.
Qed.

Lemma half_quantum : pow2 (-1074) == 2 * pow2 (-1075).
Proof. vm_compute. reflexivity. Qed.

Lemma max_double_room_abs :
  max_double + u * max_double + pow2 (-1075) < pow2 1024.
Proof. vm_compute. reflexivity. Qed.

Lemma round_abs (x : Q) :
  Qabs x <= max_double ->
  exists v : Q, round x = Num v /\ Qabs (v - x) <= u * Qabs x + pow2 (-1075).
Proof.
  intros Hhi. pose proof (Qabs_nonneg x) as Ha0.
  pose proof (pow2_pos (-1075)) as Heta.
  unfold round.
  destruct (Qeq_bool x 0) eqn:E0.
  - apply Qeq_bool_iff in E0. exists 0. split; [reflexivity|].
    assert (E : 0 - x == 0) by (rewrite E0; reflexivity).
    rewrite E. change (Qabs 0) with 0. unfold u.
    set (a := Qabs x) in *. set (h := pow2 (-1075)) in *. lra.
  - assert (Hne : ~ x == 0).
    { intros H. apply Qeq_bool_iff in H. congruence. }
    pose proof (quantum_bound x Hne) as Hq.
    set (p := quantum x) in *.
    set (n := rne (x / pow2 p)).
    set (v := Qred (inject_Z n * pow2 p)).
    assert (Hv : v == inject_Z n * pow2 p) by apply Qred_correct.
    pose proof (pow2_pos p) as Hp.
    assert (Hclose : Qabs (v - x) <= u * Qabs x + pow2 (-1075)).
    { assert (Hx : v - x == (inject_Z n - x / pow2 p) * pow2 p).
      { rewrite Hv. field. lra. }
      rewrite Hx, Qabs_Qmult, (Qabs_pos (pow2 p)) by lra.
      pose proof (rne_close (x / pow2 p)) as Hr. fold n in Hr.
      pose proof (Qabs_nonneg (inject_Z n - x / pow2 p)) as Hr0.
      pose proof half_quantum as Hh.
      set (r := Qabs (inject_Z n - x / pow2 p)) in *.
      set (a := Qabs x) in *. set (q := pow2 p) in *.
      set (h := pow2 (-1075)) in *. set (h2 := pow2 (-1074)) in *.
      unfold u in *.
      assert (r * q <= (1 # 2) * q).
      { apply Qmult_le_compat_r; lra. }
      lra. }
    exists v. split; [|exact Hclose].
    assert (Hfin : Qle_bool (pow2 1024) (Qabs v) = false).
    { destruct (Qle_bool (pow2 1024) (Qabs v)) eqn:E; [|reflexivity].
      apply Qle_bool_iff in E. exfalso.
      pose proof max_double_room_abs as Hroom.
      apply Qabs_Qle_condition in Hclose.
      assert (Hxa : - Qabs x <= x <= Qabs x)
        by (apply Qabs_Qle_condition; apply Qle_refl).
      assert (Hva : Qabs v <= Qabs x + u * Qabs x + pow2 (-1075)).
      { apply Qabs_Qle_condition. unfold u in *.
        set (a := Qabs x) in *. set (h := pow2 (-1075)) in *. lra. }
      set (a := Qabs x) in *. set (M := max_double) in *.
      set (P := pow2 1024) in *. set (h := pow2 (-1075)) in *.
      unfold u in *. lra. }
    rewrite Hfin. reflexivity.
Qed.

(** The same without absolute values: a number within [B] of zero rounds
    to a double within [u * B + 2^-1075] of it. *)
Lemma round_err (x B : Q) :
  - B <= x -> x <= B -> B <= max_double ->
  exists v : Q,
    round x = Num v /\
    x - (u * B + pow2 (-1075)) <= v /\ v <= x + (u * B + pow2 (-1075)).
Proof.
  intros Hlo Hhi HB.
  assert (Ha : Qabs x <= B) by (apply Qabs_Qle_condition; split; assumption).
  destruct (round_abs x) as (v & Hv & Hc); [lra|].
  exists v. split; [exact Hv|].
  apply Qabs_Qle_condition in Hc. unfold u in *.
  set (a := Qabs x) in *. set (h := pow2 (-1075)) in *. lra.
Qed.

Lemma mul_bound (s z S Z : Q) :
  - S <= s -> s <= S -> - Z <= z -> z <= Z ->
  - (S * Z) <= s * z /\ s * z <= S * Z.
Proof.
  intros H1 H2 H3 H4.
  assert (A1 : 0 <= (S - s) * (Z - z)) by (apply Qmult_le_0_compat; lra).
  assert (A2 : 0 <= (S + s) * (Z + z)) by (apply Qmult_le_0_compat; lra).
  assert (A3 : 0 <= (S - s) * (Z + z)) by (apply Qmult_le_0_compat; lra).
  assert (A4 : 0 <= (S + s) * (Z - z)) by (apply Qmult_le_0_compat; lra).
  split; lra.
Qed.

End FloatFacts.

(** ** Comparisons and the monad *)

Lemma Qltb_true (x y : Q) : Py.Qltb x y = true <-> (x < y)%Q.
Proof.
  unfold Py.Qltb. rewrite negb_true_iff.
  split; intros H.
  - apply Qnot_le_lt. intros Hle. apply Qle_bool_iff in Hle. congruence.
  - destruct (Qle_bool y x) eqn:E; [|reflexivity].
    apply Qle_bool_iff in E. exfalso. exact (Qlt_not_le _ _ H E).
Qed.

Lemma Qltb_false (x y : Q) : Py.Qltb x y = false <-> ~ (x < y)%Q.
Proof.
  rewrite <- Qltb_true. destruct (Py.Qltb x y); split; congruence.
Qed.

Lemma dispatch_G0 (T : CellType) (w : World) :
  current_phase (self w) = "G0" -> do_cell_cycle T w = g0_phase T w.
Proof. intros H. unfold do_cell_cycle, Py.bind, rd. rewrite H. reflexivity. Qed.

Lemma dispatch_G1 (T : CellType) (w : World) :
  current_phase (self w) = "G1" -> do_cell_cycle T w = g1_phase T w.
Proof. intros H. unfold do_cell_cycle, Py.bind, rd. rewrite H. reflexivity. Qed.

Lemma dispatch_S (T : CellType) (w : World) :
  current_phase (self w) = "S" -> do_cell_cycle T w = s_phase T w.
Proof. intros H. unfold do_cell_cycle, Py.bind, rd. rewrite H. reflexivity. Qed.

(** Every tag other than the three tested ones falls to [m_phase]. *)
Lemma dispatch_else (T : CellType) (w : World) :
  current_phase (self w) <> "G0" -> current_phase (self w) <> "G1" ->
  current_phase (self w) <> "S" -> do_cell_cycle T w = m_phase T w.
Proof.
  intros H0 H1 H2. unfold do_cell_cycle, Py.bind, rd.
  apply String.eqb_neq in H0, H1, H2. simpl. rewrite H0, H1, H2. reflexivity.
Qed.

(** ** Dividing by a stored length *)

(** A non-zero integer within the doubles' range converts to a non-zero
    finite double. *)
Lemma of_int_num (n : Z) :
  DInt.fits n = true -> n <> 0%Z ->
  exists v : Q, F.of_int n = F.Num v /\ ~ (v == 0)%Q.
Proof.
  intros Hfit Hn. unfold F.of_int.
  destruct (Z.abs n <=? 2 ^ 53)%Z eqn:E.
  - exists (inject_Z n). split; [reflexivity|].
    unfold Qeq, inject_Z. cbn [Qnum Qden]. lia.
  - apply Z.leb_gt in E. apply Z.leb_le in Hfit.
    assert (Habs : Qabs (inject_Z n) = inject_Z (Z.abs n)) by reflexivity.
    assert (H1 : (1 <= inject_Z (Z.abs n))%Q).
    { change 1%Q with (inject_Z 1). rewrite <- Zle_Qle. lia. }
    assert (Hsmall : (F.pow2 (-1022) <= 1)%Q) by (vm_compute; discriminate).
    destruct (FloatFacts.round_close (inject_Z n)) as (v & Hv & Hc).
    + rewrite Habs. lra.
    + rewrite Habs. unfold F.max_double. rewrite <- Zle_Qle. exact Hfit.
    + exists v. split; [exact Hv|]. intros H0. rewrite Habs, H0 in Hc.
      assert (E0 : (0 - inject_Z n == - inject_Z n)%Q) by ring.
      rewrite E0, Qabs_opp, Habs in Hc. unfold F.u in Hc. lra.
Qed.

(** [x / n] with [n] a stored length: no [OverflowError], and
    [ZeroDivisionError] exactly at 0. *)
Lemma truediv_int {St : Type} (x : F.t) (n : Z) (s : St) :
  DInt.fits n = true ->
  Py.truediv x n s
    = if (n =? 0)%Z then (s, Raised ZeroDivisionError)
      else (s, Returned (F.div x (F.of_int n))).
Proof.
  intros Hfit. unfold Py.truediv, Py.float_of_int, Py.fdiv, Py.bind.
  destruct (Z.eqb_spec n 0) as [->|Hn].
  - reflexivity.
  - destruct (of_int_num n Hfit Hn) as (v & Hv & Hv0). rewrite Hv.
    unfold Py.ret. cbn [F.is_zero].
    destruct (Qeq_bool v 0) eqn:E; [apply Qeq_bool_iff in E; contradiction|].
    reflexivity.
Qed.

(** An integer beyond the doubles' range cannot be divided by: the
    conversion raises first. *)
Lemma truediv_overflow {St : Type} (x : F.t) (s : St) :
  Py.result (Py.truediv x (10 ^ 400)) s
    = Raised (OverflowError "int too large to convert to float").
Proof. vm_compute. reflexivity. Qed.

Ltac expose w :=
  destruct w as [[[subst_ inh_ bvol_] sv_ cv_ [cl_ Hcl_] [gl_ Hgl_]
                    ph_ it_ age_ dead_] rng_];
  cbn [self np_random cell_body seed_vol current_vol cyc_len g1_len
       cyc_len_int g1_len_int DInt.to_Z
       current_phase current_cyc_iteration current_age is_dead
       substances contact_inhibited body_vol] in *.

Ltac reduce :=
  cbv [Py.after Py.result g1_phase g0_phase s_phase m_phase m_phase_aging
       hypoxic_death Py.bind Py.ret Py.raise rd wr Py.or_ Py.and_ Py.not_
       Py.truthy get_substance_level is_contact_inhibited
       change_vol change_volume store_body_vol with_self oxygen inhibited
       set_cell_body set_current_vol set_cyc_len set_g1_len set_current_phase
       set_current_cyc_iteration set_current_age set_is_dead
       self np_random cell_body seed_vol current_vol cyc_len g1_len
       cyc_len_int g1_len_int DInt.to_Z
       current_phase current_cyc_iteration current_age is_dead
       substances contact_inhibited body_vol fst snd negb] in *.

Ltac step :=
  reduce; rewrite ?truediv_int by assumption; reduce.

(** Closed arithmetic side conditions on concrete cells. *)
Ltac calc := vm_compute; first [reflexivity | lia | discriminate].

(** ** The G1 handler *)

(** A G1 tick with a non-zero [g1_len] returns, adds the double
    [seed_vol / g1_len] to [current_vol], hands the new volume to the body
    and counts the tick. *)
Lemma g1_phase_grows (T : CellType) (w : World) :
  g1_len (self w) <> 0%Z ->
  exists w',
    g1_phase T w = (w', Returned tt) /\
    current_vol (self w')
      = F.add (current_vol (self w))
          (F.div (seed_vol (self w)) (F.of_int (g1_len (self w)))) /\
    body_vol (cell_body (self w')) = current_vol (self w') /\
    current_cyc_iteration (self w') = (current_cyc_iteration (self w) + 1)%Z /\
    seed_vol (self w') = seed_vol (self w) /\
    g1_len (self w') = g1_len (self w).
Proof.
  intros Hn. expose w. step.
  destruct (Z.eqb_spec gl_ 0) as [->|_]; [contradiction|].
  destruct (Z.eqb_spec (it_ + 1) gl_) as [_|_].
  - destruct (Py.Qltb (subst_ "oxygen") (g0_oxy_threshold T)); [|destruct inh_];
      eexists; repeat split.
  - eexists; repeat split.
Qed.

(** C5: a G1 tick on which the counter reaches [g1_len] moves the cell to
    G0 when oxygen is below [g0_oxy_threshold] or the cell is
    contact-inhibited, and to S when oxygen is at or above the threshold and
    there is no contact inhibition; a tick on which the counter does not
    reach [g1_len] leaves the cell in G1. *)
Theorem g1_exit_boundary (T : CellType) (w : World) :
  current_phase (self w) = "G1" ->
  (0 <= current_cyc_iteration (self w))%Z ->
  let reached := (current_cyc_iteration (self w) + 1)%Z = g1_len (self w) in
  let w' := Py.after (do_cell_cycle T) w in
  (reached -> (oxygen w < g0_oxy_threshold T)%Q \/ inhibited w = true ->
     current_phase (self w') = "G0") /\
  (reached -> ~ (oxygen w < g0_oxy_threshold T)%Q -> inhibited w = false ->
     current_phase (self w') = "S") /\
  (~ reached -> current_phase (self w') = "G1").
Proof.
  intros Hph Hnn reached w'. subst reached w'.
  unfold Py.after. rewrite (dispatch_G1 T w Hph).
  expose w. step. subst ph_.
  destruct (Z.eqb_spec gl_ 0) as [->|Hgl].
  - repeat split; intros; try reflexivity; lia.
  - destruct (Z.eqb_spec (it_ + 1) gl_) as [Heq|Hne].
    + repeat split.
      * intros _ [Hlow|Hinh].
        -- apply Qltb_true in Hlow. rewrite Hlow. reflexivity.
        -- rewrite Hinh.
           destruct (Py.Qltb (subst_ "oxygen") (g0_oxy_threshold T));
             reflexivity.
      * intros _ Hhigh Hinh. apply Qltb_false in Hhigh.
        rewrite Hhigh, Hinh. reflexivity.
      * intros Hne. contradiction.
    + repeat split; intros; try reflexivity; contradiction.
Qed.

Lemma g1_exit_boundary_witness :
  current_phase (self (Py.after (do_cell_cycle GenericCell)
                         (cell_at "G1" 11 24 12 1 (23 # 12) (1 # 4) false)))
    = "G0" /\
  current_phase (self (Py.after (do_cell_cycle GenericCell)
                         (cell_at "G1" 11 24 12 1 (23 # 12) 1 false)))
    = "S" /\
  current_phase (self (Py.after (do_cell_cycle GenericCell)
                         (cell_at "G1" 3 24 12 1 (5 # 4) 1 false)))
    = "G1".
Proof.
  split; [|split].
  - apply (g1_exit_boundary GenericCell
             (cell_at "G1" 11 24 12 1 (23 # 12) (1 # 4) false));
      [reflexivity | calc | reflexivity | left; reflexivity].
  - apply (g1_exit_boundary GenericCell
             (cell_at "G1" 11 24 12 1 (23 # 12) 1 false));
      [reflexivity | calc | reflexivity
      | intros H; vm_compute in H; discriminate | reflexivity].
  - apply (g1_exit_boundary GenericCell
             (cell_at "G1" 3 24 12 1 (5 # 4) 1 false));
      [reflexivity | calc | calc].
Defined.

(** ** The G0 handler *)

(** C6: a G0 tick taken while the cell is not contact-inhibited and oxygen
    exceeds [g0_oxy_threshold] moves the cell to S when the counter equals
    [g1_len] and to M when it does not; under any other condition the tick
    changes nothing, so the cell stays in G0 with its counter and volume. *)
Theorem g0_resumption (T : CellType) (w : World) :
  current_phase (self w) = "G0" ->
  let clear := inhibited w = false /\ (g0_oxy_threshold T < oxygen w)%Q in
  let w' := Py.after (do_cell_cycle T) w in
  Py.result (do_cell_cycle T) w = Returned tt /\
  (clear -> current_cyc_iteration (self w) = g1_len (self w) ->
     current_phase (self w') = "S") /\
  (clear -> current_cyc_iteration (self w) <> g1_len (self w) ->
     current_phase (self w') = "M") /\
  (~ clear ->
     w' = w /\ current_phase (self w') = "G0" /\
     current_cyc_iteration (self w') = current_cyc_iteration (self w) /\
     current_vol (self w') = current_vol (self w)).
Proof.
  intros Hph clear w'. subst clear w'.
  unfold Py.after, Py.result. rewrite (dispatch_G0 T w Hph).
  expose w. step. subst ph_.
  destruct inh_; cbn [negb].
  - repeat split; try reflexivity; intros [Hc _]; discriminate.
  - destruct (Py.Qltb (g0_oxy_threshold T) (subst_ "oxygen")) eqn:Hox.
    + assert (Hclear : false = false /\ (g0_oxy_threshold T < subst_ "oxygen")%Q)
        by (split; [reflexivity | apply Qltb_true; exact Hox]).
      destruct (Z.eqb_spec it_ gl_) as [Heq|Hne]; repeat split; intros;
        try reflexivity; contradiction.
    + apply Qltb_false in Hox.
      repeat split; try reflexivity; intros [_ Hc]; contradiction.
Qed.

Lemma g0_resumption_witness :
  current_phase (self (Py.after (do_cell_cycle GenericCell)
                         (cell_at "G0" 12 24 12 1 2 1 false))) = "S" /\
  current_phase (self (Py.after (do_cell_cycle GenericCell)
                         (cell_at "G0" 23 24 12 1 2 1 false))) = "M" /\
  Py.after (do_cell_cycle GenericCell) (cell_at "G0" 12 24 12 1 2 (1 # 2) false)
    = cell_at "G0" 12 24 12 1 2 (1 # 2) false.
Proof.
  split; [|split].
  - apply (g0_resumption GenericCell (cell_at "G0" 12 24 12 1 2 1 false));
      [reflexivity | split; reflexivity | reflexivity].
  - apply (g0_resumption GenericCell (cell_at "G0" 23 24 12 1 2 1 false));
      [reflexivity | split; reflexivity | calc].
  - apply (g0_resumption GenericCell
             (cell_at "G0" 12 24 12 1 2 (1 # 2) false));
      [reflexivity | intros [_ H]; vm_compute in H; discriminate].
Defined.

(** ** Hypoxic death *)

(** C8: whatever the phase and the counter, [hypoxic_death] returns; with
    oxygen strictly below [hypoxia_theshold] it sets [is_dead] and touches
    nothing else, and with oxygen at or above it the whole state, [is_dead]
    included, is as before. *)
Theorem hypoxic_death_independent (T : CellType) (w : World) :
  let w' := Py.after (hypoxic_death T) w in
  Py.result (hypoxic_death T) w = Returned tt /\
  ((oxygen w < hypoxia_theshold T)%Q ->
     is_dead (self w') = true /\ w' = with_self (set_is_dead true (self w)) w) /\
  (~ (oxygen w < hypoxia_theshold T)%Q ->
     w' = w /\ is_dead (self w') = is_dead (self w)).
Proof.
  intros w'. subst w'. expose w. step.
  destruct (Py.Qltb (subst_ "oxygen") (hypoxia_theshold T)) eqn:Hox.
  - apply Qltb_true in Hox.
    repeat split; try reflexivity; intros; contradiction.
  - apply Qltb_false in Hox.
    repeat split; try reflexivity; intros; contradiction.
Qed.

Lemma hypoxic_death_independent_witness :
  is_dead (self (Py.after (hypoxic_death GenericCell)
                   (cell_at "S" 17 24 12 1 2 (1 # 5) false))) = true /\
  Py.after (hypoxic_death GenericCell) (cell_at "G0" 3 24 12 1 2 (1 # 4) true)
    = cell_at "G0" 3 24 12 1 2 (1 # 4) true.
Proof.
  split.
  - apply (hypoxic_death_independent GenericCell
             (cell_at "S" 17 24 12 1 2 (1 # 5) false)).
    reflexivity.
  - apply (hypoxic_death_independent GenericCell
             (cell_at "G0" 3 24 12 1 2 (1 # 4) true)).
    intros H; vm_compute in H; discriminate.
Defined.

(** ** Growth over a whole G1 *)

Lemma ticks_succ (T : CellType) (k : nat) (w w1 : World) :
  do_cell_cycle T w = (w1, Returned tt) ->
  ticks T (S k) w = ticks T k w1.
Proof. intros H. cbn [ticks]. unfold Py.bind. rewrite H. reflexivity. Qed.

(** [k] ticks that all start in G1 return and make [k] rounded additions of
    the double [seed_vol / g1_len]. *)
Lemma g1_ticks_accumulate (T : CellType) (k : nat) :
  forall w : World,
    g1_len (self w) <> 0%Z ->
    (forall j, (j < k)%nat ->
       current_phase (self (Py.after (ticks T j) w)) = "G1") ->
    exists w',
      ticks T k w = (w', Returned tt) /\
      current_vol (self w')
        = F.grow k (current_vol (self w))
            (F.div (seed_vol (self w)) (F.of_int (g1_len (self w)))) /\
      seed_vol (self w') = seed_vol (self w) /\
      g1_len (self w') = g1_len (self w).
Proof.
  induction k as [|k IH]; intros w Hn Hstay.
  - exists w. repeat split.
  - assert (Hph : current_phase (self w) = "G1") by (apply (Hstay O); lia).
    destruct (g1_phase_grows T w Hn) as (w1 & Hrun & Hvol & _ & _ & Hsv & Hgl).
    rewrite <- (dispatch_G1 T w Hph) in Hrun.
    destruct (IH w1) as (w' & Hk & Hvol' & Hsv' & Hgl').
    + rewrite Hgl. exact Hn.
    + intros j Hj. specialize (Hstay (S j) ltac:(lia)).
      unfold Py.after in *. rewrite (ticks_succ T j w w1 Hrun) in Hstay.
      exact Hstay.
    + exists w'. rewrite (ticks_succ T k w w1 Hrun).
      repeat split; try congruence.
      rewrite Hvol', Hvol, Hsv, Hgl. reflexivity.
Qed.

(** A tick that does not bring the counter to [g1_len] keeps the phase. *)
Lemma g1_phase_stays (T : CellType) (w : World) :
  (current_cyc_iteration (self w) + 1)%Z <> g1_len (self w) ->
  current_phase (self (Py.after (g1_phase T) w)) = current_phase (self w).
Proof.
  intros Hne. expose w. step.
  destruct (Z.eqb_spec gl_ 0) as [_|_]; [reflexivity|].
  destruct (Z.eqb_spec (it_ + 1) gl_) as [Heq|_]; [contradiction|reflexivity].
Qed.

(** Counted from [i], the first [k] ticks of a G1 of length [L] stay in G1
    as long as [i + k < L]. *)
Lemma g1_not_left_early (T : CellType) (k : nat) :
  forall w : World,
    current_phase (self w) = "G1" ->
    (0 <= current_cyc_iteration (self w))%Z ->
    (current_cyc_iteration (self w) + Z.of_nat k < g1_len (self w))%Z ->
    current_phase (self (Py.after (ticks T k) w)) = "G1".
Proof.
  induction k as [|k IH]; intros w Hph Hi Hk; [exact Hph|].
  assert (Hn : g1_len (self w) <> 0%Z) by lia.
  destruct (g1_phase_grows T w Hn) as (w1 & Hrun & _ & _ & Hit & _ & Hgl).
  pose proof (g1_phase_stays T w ltac:(lia)) as Hstay.
  unfold Py.after in Hstay. rewrite Hrun in Hstay. cbn [fst] in Hstay.
  rewrite <- (dispatch_G1 T w Hph) in Hrun.
  unfold Py.after. rewrite (ticks_succ T k w w1 Hrun).
  apply IH; [congruence | lia | lia].
Qed.

(** The volume after [L] rounded additions of [s / L] to [s], for a seed
    volume [s] far enough from the ends of the doubles' range. *)
Lemma grow_within_tolerance (s : Q) (L : nat) :
  (0 < L)%nat -> (Z.of_nat L < 2 ^ 52)%Z ->
  (inject_Z (Z.of_nat L) * F.pow2 (-1021) <= s)%Q -> (s <= F.pow2 1021)%Q ->
  exists v : Q,
    F.grow L (F.Num s) (F.div (F.Num s) (F.of_int (Z.of_nat L))) = F.Num v /\
    (Qabs (v - s * 2) <= tolerance L * (s * 2))%Q.
Proof. exact (FloatFacts.grow_doubles_linear s L). Qed.

(** C9: a cell in G1 with [g1_len = L], [0 < L < 2^52], whose [current_vol]
    and [seed_vol] are the same double [s] with [L * 2^-1021 <= s <= 2^1021],
    ticked [L] times without leaving G1 before the last tick: every tick
    returns, and [current_vol] ends as a finite double within the relative
    error [tolerance L], that is [(L + 1) * 2^-52], of [s * 2]. *)
Theorem g1_growth_doubles (T : CellType) (w : World) (L : nat) (s : Q) :
  (0 < L)%nat -> (Z.of_nat L < 2 ^ 52)%Z ->
  current_phase (self w) = "G1" ->
  g1_len (self w) = Z.of_nat L ->
  seed_vol (self w) = F.Num s ->
  current_vol (self w) = F.Num s ->
  (inject_Z (Z.of_nat L) * F.pow2 (-1021) <= s)%Q -> (s <= F.pow2 1021)%Q ->
  (forall j, (j < L)%nat ->
     current_phase (self (Py.after (ticks T j) w)) = "G1") ->
  Py.result (ticks T L) w = Returned tt /\
  exists v : Q,
    current_vol (self (Py.after (ticks T L) w)) = F.Num v /\
    (Qabs (v - s * 2) <= tolerance L * (s * 2))%Q.
Proof.
  intros HL Htop _ Hgl Hsv Hcv Hlow Hhigh Hstay.
  assert (Hn : g1_len (self w) <> 0%Z) by lia.
  destruct (g1_ticks_accumulate T L w Hn Hstay) as (w' & Hrun & Hsum & _ & _).
  unfold Py.result, Py.after. rewrite Hrun. cbn [fst snd].
  split; [reflexivity|].
  rewrite Hsum, Hsv, Hcv, Hgl.
  exact (grow_within_tolerance s L HL Htop Hlow Hhigh).
Qed.

Lemma g1_growth_doubles_witness :
  Py.result (ticks GenericCell 3) (cell_at "G1" 0 7 3 5 5 1 false)
    = Returned tt /\
  exists v : Q,
    current_vol (self (Py.after (ticks GenericCell 3)
                         (cell_at "G1" 0 7 3 5 5 1 false))) = F.Num v /\
    (Qabs (v - 5 * 2) <= tolerance 3 * (5 * 2))%Q.
Proof.
  apply (g1_growth_doubles GenericCell (cell_at "G1" 0 7 3 5 5 1 false) 3 5).
  - lia.
  - calc.
  - reflexivity.
  - reflexivity.
  - reflexivity.
  - reflexivity.
  - vm_compute. discriminate.
  - vm_compute. discriminate.
  - intros j Hj.
    destruct j as [|[|[|j]]]; [reflexivity | reflexivity | reflexivity | lia].
Defined.

(** C9, as the spec words it, fails at both ends of the doubles' range.
    [faint] meets every premise (G1, [g1_len = 3 > 0], [current_vol] equal to
    [seed_vol], in G1 before each of its three ticks) and every tick
    returns, yet the increment [2^-1074 / 3] rounds to zero and the volume
    ends where it began, at [seed_vol] and not near [seed_vol * 2].  [huge]
    meets them too, and its one tick takes the volume to infinity.  In
    between, the sum is close to the double but not equal to it:
    [unit_cell] ends at [2 - 2^-52]. *)
Lemma g1_growth_not_doubling :
  (current_phase (self faint) = "G1" /\
   g1_len (self faint) = 3%Z /\
   current_vol (self faint) = seed_vol (self faint) /\
   (forall j, (j < 3)%nat ->
      current_phase (self (Py.after (ticks GenericCell j) faint)) = "G1") /\
   Py.result (ticks GenericCell 3) faint = Returned tt /\
   current_vol (self (Py.after (ticks GenericCell 3) faint))
     = seed_vol (self faint) /\
   seed_vol (self faint) = F.Num (F.pow2 (-1074))) /\
  (current_phase (self huge) = "G1" /\
   g1_len (self huge) = 1%Z /\
   current_vol (self huge) = seed_vol (self huge) /\
   Py.result (ticks GenericCell 1) huge = Returned tt /\
   current_vol (self (Py.after (ticks GenericCell 1) huge)) = F.Inf false) /\
  (current_vol (self (Py.after (ticks GenericCell 3) unit_cell))
     = F.Num (2 - F.pow2 (-52)) /\
   seed_vol (self unit_cell) = F.Num 1).
Proof.
  split; [|split].
  - split; [reflexivity|]. split; [vm_compute; reflexivity|].
    split; [reflexivity|]. split.
    { intros j Hj.
      destruct j as [|[|[|j]]];
        [vm_compute; reflexivity | vm_compute; reflexivity
        | vm_compute; reflexivity | lia]. }
    split; [vm_compute; reflexivity|].
    split; vm_compute; reflexivity.
  - split; [reflexivity|]. split; [vm_compute; reflexivity|].
    split; [reflexivity|]. split; vm_compute; reflexivity.
  - split; vm_compute; reflexivity.
Qed.

(** ** The unguarded division *)

Lemma trunc_small (x : Q) : (- (1) < x)%Q -> (x < 1)%Q -> F.trunc x = 0%Z.
Proof.
  destruct x as [n d]. unfold Qlt, F.trunc. cbn [Qnum Qden Qopp].
  intros Hlo Hhi.
  destruct (Z.le_gt_cases 0 n) as [Hpos|Hneg].
  - apply Z.quot_small. lia.
  - replace n with (- (- n))%Z by lia.
    rewrite Z.quot_opp_l by lia.
    rewrite Z.quot_small by lia. reflexivity.
Qed.

(** [int()] of a double strictly between -1 and 1 is 0. *)
Lemma int_small {St : Type} (x : Q) (s : St) :
  (- (1) < x)%Q -> (x < 1)%Q -> Py.int (F.Num x) s = (s, Returned DInt.zero).
Proof.
  intros Hlo Hhi. unfold Py.int. rewrite (trunc_small x Hlo Hhi). reflexivity.
Qed.

(** A stored length converts to a finite double of its own sign. *)
Lemma of_int_sign (n : Z) :
  DInt.fits n = true ->
  exists a : Q,
    F.of_int n = F.Num a /\
    ((0 <= n)%Z -> (0 <= a)%Q) /\
    ((n < 0)%Z -> (- (F.max_double * (1 + F.u)) <= a)%Q /\ (a <= - (1 # 2))%Q).
Proof.
  intros Hfit. unfold F.of_int.
  assert (Hmax : (0 < F.max_double)%Q) by (vm_compute; reflexivity).
  destruct (Z.abs n <=? 2 ^ 53)%Z eqn:E.
  - exists (inject_Z n). split; [reflexivity|]. apply Z.leb_le in E. split.
    + intros H. change 0%Q with (inject_Z 0). rewrite <- Zle_Qle. exact H.
    + intros H.
      assert (H1 : (inject_Z n <= inject_Z (-1))%Q) by (rewrite <- Zle_Qle; lia).
      assert (H2 : (inject_Z (- 2 ^ 53) <= inject_Z n)%Q)
        by (rewrite <- Zle_Qle; lia).
      assert (H3 : (- F.max_double <= inject_Z (- 2 ^ 53))%Q)
        by (vm_compute; discriminate).
      change (inject_Z (-1)) with (- (1))%Q in H1. unfold F.u. lra.
  - apply Z.leb_gt in E. apply Z.leb_le in Hfit.
    destruct (Z.le_gt_cases 0 n) as [Hpos|Hneg].
    + destruct (FloatFacts.round_pos (inject_Z n)) as (v & Hv & Hlo & Hhi).
      * assert (H1 : (1 <= inject_Z n)%Q).
        { change 1%Q with (inject_Z 1). rewrite <- Zle_Qle. lia. }
        assert (Hsmall : (F.pow2 (-1022) <= 1)%Q) by (vm_compute; discriminate).
        lra.
      * unfold F.max_double. rewrite <- Zle_Qle. lia.
      * exists v. split; [exact Hv|]. split; [|lia]. intros _.
        assert (H1 : (0 <= inject_Z n)%Q).
        { change 0%Q with (inject_Z 0). rewrite <- Zle_Qle. lia. }
        unfold F.u in *. lra.
    + destruct (FloatFacts.round_neg (inject_Z n)) as (v & Hv & Hlo & Hhi).
      * assert (H1 : (inject_Z n <= - (1))%Q).
        { change (- (1))%Q with (inject_Z (-1)). rewrite <- Zle_Qle. lia. }
        assert (Hsmall : (F.pow2 (-1022) <= 1)%Q) by (vm_compute; discriminate).
        lra.
      * unfold F.max_double. rewrite <- inject_Z_opp, <- Zle_Qle. lia.
      * exists v. split; [exact Hv|]. split; [lia|]. intros _.
        assert (H1 : (inject_Z n <= - (1))%Q).
        { change (- (1))%Q with (inject_Z (-1)). rewrite <- Zle_Qle. lia. }
        assert (H2 : (- F.max_double <= inject_Z n)%Q).
        { unfold F.max_double. rewrite <- inject_Z_opp, <- Zle_Qle. lia. }
        unfold F.u in *. lra.
Qed.

(** Linear arithmetic over the bounds of the doubles' range. *)
Ltac bounds :=
  unfold F.u in *;
  set (e_min := F.pow2 (-1022)) in *; set (d_max := F.max_double) in *;
  lra.

(** The scale [cyc_len / 2.0 / 10.0] handed to the sampler is negative
    exactly when [cyc_len] is. *)
Lemma scale_sign (n : Z) :
  DInt.fits n = true ->
  F.lt0 (F.div (F.div (F.of_int n) 2%Q) 10%Q) = (n <? 0)%Z.
Proof.
  intros Hfit. destruct (of_int_sign n Hfit) as (a & Ha & Hpos & Hneg).
  rewrite Ha. destruct (Z.ltb_spec n 0) as [Hn|Hn].
  - destruct (Hneg Hn) as [Hlo Hhi].
    assert (Hmax : (0 < F.max_double)%Q) by (vm_compute; reflexivity).
    assert (Hsmall : (F.pow2 (-1022) <= 1 # 1024)%Q)
      by (vm_compute; discriminate).
    cbn [F.div]. change (Qeq_bool 2 0) with false. cbv iota.
    assert (Ea : (a / 2 == a * (1 # 2))%Q) by field.
    destruct (FloatFacts.round_neg (a / 2)) as (m & Hm & Hmlo & Hmhi);
      [bounds | bounds |].
    rewrite Hm. cbn [F.div]. change (Qeq_bool 10 0) with false. cbv iota.
    assert (Em : (m / 10 == m * (1 # 10))%Q) by field.
    destruct (FloatFacts.round_neg (m / 10)) as (s & Hs & Hslo & Hshi);
      [bounds | bounds |].
    rewrite Hs. cbn [F.lt0]. unfold F.negative.
    destruct (Qle_bool 0 s) eqn:E; [|reflexivity].
    apply Qle_bool_iff in E. bounds.
  - apply FloatFacts.nonneg_lt0.
    apply FloatFacts.div_nonneg; [|reflexivity].
    apply FloatFacts.div_nonneg; [|reflexivity].
    cbn [F.nonneg]. apply Qle_bool_iff. apply Hpos. exact Hn.
Qed.

(** [self.get_g1_len()]: a negative [cyc_len] is refused by the sampler
    before anything is drawn; otherwise one deviate is taken and [int()] is
    applied to the double [g1_draw]. *)
Lemma get_g1_len_bound (w : World) :
  bound get_g1_len w
    = if (cyc_len (self w) <? 0)%Z then (w, Raised (ValueError "scale < 0"))
      else
        Py.int (g1_draw w)
          {| self := self w;
             np_random := {| gauss := gauss (np_random w);
                             consumed := S (consumed (np_random w)) |} |}.
Proof.
  destruct w as [[b sv cv [cl Hcl] gl ph it age dead] r].
  pose proof (scale_sign cl Hcl) as Hs.
  destruct (of_int_sign cl Hcl) as (a & Ha & _ & _).
  unfold bound, get_g1_len, def, normal, g1_draw, cyc_len.
  cbn [length Nat.eqb self np_random cyc_len_int DInt.to_Z].
  unfold Py.bind, rd, Py.rtruediv, Py.float_of_int, Py.bind, Py.fdiv, Py.ret.
  cbn [self cyc_len_int DInt.to_Z np_random cyc_len].
  rewrite Ha in *.
  cbn [F.is_zero]. change (Qeq_bool 2 0) with false.
  change (Qeq_bool 10 0) with false. cbv iota.
  cbn [self np_random]. rewrite Hs.
  destruct (cl <? 0)%Z; reflexivity.
Qed.

(** With [g1_len = 0] a G1 tick raises, the counter already advanced and
    nothing else changed. *)
Lemma g1_phase_zero (T : CellType) (w : World) :
  g1_len (self w) = 0%Z ->
  Py.result (g1_phase T) w = Raised ZeroDivisionError /\
  current_phase (self (Py.after (g1_phase T) w)) = current_phase (self w) /\
  current_vol (self (Py.after (g1_phase T) w)) = current_vol (self w).
Proof. intros H0. expose w. step. subst gl_. cbn [Z.eqb]. auto. Qed.

(** C10: [g1_phase] divides by [g1_len] without a test.  With a non-zero
    [g1_len] it returns and the volume update is made, the rounded sum of
    [current_vol] and the double [seed_vol / g1_len]; with [g1_len = 0] it
    raises [ZeroDivisionError] with the phase and the volume as they were;
    and on a cell whose [cyc_len] is not negative, whenever the double
    [get_g1_len] draws lies strictly between -1 and 1, [get_g1_len] hands
    back 0, the assignment of line 140 stores it as it is, and the G1 tick
    that follows raises. *)
Theorem g1_division_unguarded (T : CellType) (w : World) :
  (g1_len (self w) <> 0%Z ->
     Py.result (g1_phase T) w = Returned tt /\
     current_vol (self (Py.after (g1_phase T) w))
       = F.add (current_vol (self w))
           (F.div (seed_vol (self w)) (F.of_int (g1_len (self w)))) /\
     body_vol (cell_body (self (Py.after (g1_phase T) w)))
       = current_vol (self (Py.after (g1_phase T) w))) /\
  (g1_len (self w) = 0%Z ->
     Py.result (g1_phase T) w = Raised ZeroDivisionError /\
     current_phase (self (Py.after (g1_phase T) w)) = current_phase (self w) /\
     current_vol (self (Py.after (g1_phase T) w)) = current_vol (self w)) /\
  (forall x : Q,
     (0 <= cyc_len (self w))%Z ->
     g1_draw w = F.Num x -> (- (1) < x)%Q -> (x < 1)%Q ->
     Py.result assign_g1_len w = Returned tt /\
     g1_len (self (Py.after assign_g1_len w)) = 0%Z /\
     Py.result (g1_phase T) (Py.after assign_g1_len w)
       = Raised ZeroDivisionError).
Proof.
  split; [|split].
  - intros Hn.
    destruct (g1_phase_grows T w Hn) as (w' & Hrun & Hvol & Hbody & _).
    unfold Py.result, Py.after. rewrite Hrun. cbn [fst snd]. auto.
  - exact (g1_phase_zero T w).
  - intros x Hcl Hdraw Hlo Hhi.
    assert (Hrun : assign_g1_len w
                   = (with_self (set_g1_len DInt.zero (self w))
                        {| self := self w;
                           np_random :=
                             {| gauss := gauss (np_random w);
                                consumed := S (consumed (np_random w)) |} |},
                      Returned tt)).
    { unfold assign_g1_len, Py.bind. rewrite get_g1_len_bound.
      apply Z.ltb_ge in Hcl. rewrite Hcl, Hdraw.
      rewrite (int_small x _ Hlo Hhi). reflexivity. }
    unfold Py.result at 1. unfold Py.after. rewrite Hrun.
    cbn [fst snd]. split; [reflexivity|]. split; [reflexivity|].
    apply g1_phase_zero. reflexivity.
Qed.

Lemma g1_division_unguarded_witness :
  Py.result (g1_phase GenericCell) (cell_at "G1" 0 24 12 1 1 1 false)
    = Returned tt /\
  Py.result (g1_phase GenericCell) (cell_at "G1" 0 0 0 1 1 1 false)
    = Raised ZeroDivisionError /\
  g1_len (self (Py.after assign_g1_len (cell_at "M" 0 1 12 1 1 1 false)))
    = 0%Z /\
  g1_len (self (Py.after assign_g1_len
                  (with_deviate (- (10)) (cell_at "M" 0 24 12 1 1 1 false))))
    = 0%Z.
Proof.
  destruct (g1_division_unguarded GenericCell
              (cell_at "G1" 0 24 12 1 1 1 false)) as (Hok & _ & _).
  destruct (g1_division_unguarded GenericCell
              (cell_at "G1" 0 0 0 1 1 1 false)) as (_ & Hzero & _).
  destruct (g1_division_unguarded GenericCell
              (cell_at "M" 0 1 12 1 1 1 false)) as (_ & _ & Hdraw).
  destruct (g1_division_unguarded GenericCell
              (with_deviate (- (10)) (cell_at "M" 0 24 12 1 1 1 false)))
    as (_ & _ & Hten).
  split; [|split; [|split]].
  - apply Hok. calc.
  - apply Hzero. reflexivity.
  - apply (Hdraw (1 # 2)%Q).
    + calc.
    + vm_compute. reflexivity.
    + reflexivity.
    + reflexivity.
  - apply (Hten 0%Q).
    + calc.
    + vm_compute. reflexivity.
    + reflexivity.
    + reflexivity.
Defined.

(** ** The S handler *)

(** At the S exit boundary the test always succeeds, whatever the oxygen
    level and the contact flag: its second operand is a method object. *)
Lemma s_phase_exit_is_G0 (T : CellType) (w : World) :
  (current_cyc_iteration (self w) + 1 = cyc_len (self w) - 1)%Z ->
  current_phase (self (Py.after (s_phase T) w)) = "G0".
Proof.
  intros H. expose w. step.
  destruct (Z.eqb_spec (it_ + 1) (cl_ - 1)) as [_|Hne]; [|contradiction].
  destruct (Py.Qltb (subst_ "oxygen") (g0_oxy_threshold T)); reflexivity.
Qed.

(** No S tick sets the phase to M. *)
Lemma s_phase_never_M (T : CellType) (w : World) :
  current_phase (self w) = "S" ->
  current_phase (self (Py.after (s_phase T) w)) <> "M".
Proof.
  intros H. expose w. step. subst ph_.
  destruct (Z.eqb_spec (it_ + 1) (cl_ - 1)) as [_|_]; [|discriminate].
  destruct (Py.Qltb (subst_ "oxygen") (g0_oxy_threshold T)); discriminate.
Qed.

(** C1: the S tick that brings the counter to [cyc_len - 1] with oxygen at
    or above [g0_oxy_threshold] and no contact inhibition should set the
    phase to M, as the G1 exit does for S; run on such a cell it sets G0,
    while the G1 exit in the same surroundings goes on to S. *)
Theorem s_exit_arrests_unstressed_cell :
  ~ (oxygen ending_S < g0_oxy_threshold GenericCell)%Q /\
  inhibited ending_S = false /\
  (current_cyc_iteration (self ending_S) + 1 = cyc_len (self ending_S) - 1)%Z /\
  Py.after (do_cell_cycle GenericCell) ending_S
    = cell_at "G0" 23 24 12 1 2 1 false /\
  current_phase (self (Py.after (do_cell_cycle GenericCell) ending_G1)) = "S".
Proof.
  repeat split.
  intros H. vm_compute in H. discriminate.
Qed.

(** ** The M handler *)

(** The bound call of line 139 binds the instance to [cls] and leaves
    [self] without an argument. *)
Lemma get_cyc_len_bound_raises (T : CellType) (w : World) :
  bound (get_cyc_len T) w
    = (w, Raised (TypeError "get_cyc_len(): positional arguments do not match")).
Proof. reflexivity. Qed.

(** What an M tick does, for every cell: the body is told the seed volume,
    the counter is zeroed, and the call of [get_cyc_len] ends the tick. *)
Lemma m_phase_effect (T : CellType) (w : World) :
  m_phase T w
    = (with_self
         (set_current_cyc_iteration 0
            (store_body_vol (seed_vol (self w)) (self w))) w,
       Raised (TypeError "get_cyc_len(): positional arguments do not match")).
Proof. reflexivity. Qed.

Lemma m_phase_keeps (T : CellType) (w : World) :
  let c' := self (Py.after (m_phase T) w) in
  current_phase c' = current_phase (self w) /\
  current_vol c' = current_vol (self w) /\
  cyc_len c' = cyc_len (self w) /\
  g1_len c' = g1_len (self w) /\
  current_age c' = current_age (self w) /\
  is_dead c' = is_dead (self w) /\
  np_random (Py.after (m_phase T) w) = np_random w.
Proof. repeat split. Qed.

(** Lines 141-144 assign [current_age] and [is_dead] only. *)
Lemma m_phase_aging_keeps (T : CellType) (w : World) :
  let c' := self (Py.after (m_phase_aging T) w) in
  Py.result (m_phase_aging T) w = Returned tt /\
  current_phase c' = current_phase (self w) /\
  current_vol c' = current_vol (self w).
Proof.
  expose w. step.
  destruct (does_age T); step;
    match goal with |- context [(?a <? ?b)%Z] => destruct (a <? b)%Z end;
    repeat split.
Qed.

(** A cell whose phase is M stays in M however often it is ticked. *)
Lemma stuck_in_M (T : CellType) (n : nat) :
  forall w : World,
    current_phase (self w) = "M" ->
    current_phase (self (repeatedly n (do_cell_cycle T) w)) = "M".
Proof.
  induction n as [|n IH]; intros w H; cbn [repeatedly]; [exact H|].
  apply IH. unfold Py.after.
  rewrite dispatch_else by (rewrite H; discriminate).
  rewrite m_phase_effect. exact H.
Qed.

(** C2: after the M tick of a live cell the next tick should run the G1
    handler; on [dividing] the M tick leaves the cell alive and still in M,
    and the next tick is [m_phase] again. *)
Theorem m_tick_is_followed_by_m_tick :
  let w' := Py.after (do_cell_cycle GenericCell) dividing in
  is_dead (self dividing) = false /\
  is_dead (self w') = false /\
  current_phase (self w') = "M" /\
  do_cell_cycle GenericCell w' = m_phase GenericCell w' /\
  do_cell_cycle GenericCell w' <> g1_phase GenericCell w'.
Proof.
  repeat split. intros H. vm_compute in H. discriminate.
Qed.

(** C3: after [m_phase] the volume should equal the seed volume and both
    lengths should be redrawn; on [dividing] (seed volume 1, volume 2) the
    handler zeroes the counter and resets the body's volume, then raises
    with [current_vol] still 2, [cyc_len] and [g1_len] as they were and no
    deviate taken from the random source. *)
Theorem m_phase_leaves_volume_and_lengths :
  let w' := Py.after (m_phase GenericCell) dividing in
  current_cyc_iteration (self w') = 0%Z /\
  body_vol (cell_body (self w')) = seed_vol (self w') /\
  current_vol (self w') = 2%Q /\
  F.eqb (current_vol (self w')) (seed_vol (self w')) = false /\
  cyc_len (self w') = cyc_len (self dividing) /\
  g1_len (self w') = g1_len (self dividing) /\
  consumed (np_random w') = consumed (np_random dividing) /\
  Py.result (m_phase GenericCell) dividing
    = Raised (TypeError "get_cyc_len(): positional arguments do not match").
Proof. repeat split. Qed.

(** ** Lifespan *)

Lemma repeatedly_snoc (n : nat) (m : Py.t World unit) :
  forall w : World, repeatedly (S n) m w = Py.after m (repeatedly n m w).
Proof.
  induction n as [|n IH]; intros w; [reflexivity|].
  change (repeatedly (S (S n)) m w) with (repeatedly (S n) m (Py.after m w)).
  rewrite IH. reflexivity.
Qed.

(** One run of lines 141-144 on an aging type. *)
Lemma m_phase_aging_step (T : CellType) (w : World) :
  does_age T = true ->
  let c' := self (Py.after (m_phase_aging T) w) in
  current_age c' = (current_age (self w) + 1)%Z /\
  is_dead c' = (lifespan T <? current_age (self w) + 1)%Z || is_dead (self w).
Proof.
  intros Hage. expose w. step. rewrite Hage. step.
  destruct (lifespan T <? age_ + 1)%Z; split; reflexivity.
Qed.

(** Lines 141-144 taken alone implement the lifespan rule: on an aging type
    with lifespan [N], [k <= N] runs from age 0 leave the cell alive at age
    [k], and run [N + 1] marks it dead. *)
Lemma aging_counts (T : CellType) (k : nat) :
  does_age T = true ->
  forall w : World,
    current_age (self w) = 0%Z -> is_dead (self w) = false ->
    (Z.of_nat k <= lifespan T)%Z ->
    let w' := repeatedly k (m_phase_aging T) w in
    current_age (self w') = Z.of_nat k /\ is_dead (self w') = false.
Proof.
  intros Hage w H0 Hlive. induction k as [|k IH]; intros Hk.
  - split; assumption.
  - destruct IH as [Ha Hd]; [lia|].
    cbv zeta. rewrite repeatedly_snoc.
    destruct (m_phase_aging_step T (repeatedly k (m_phase_aging T) w) Hage)
      as [Ha' Hd'].
    rewrite Ha', Hd', Ha, Hd. split; [lia|].
    rewrite orb_false_r. apply Z.ltb_ge. lia.
Qed.

Lemma aging_kills_past_lifespan (T : CellType) (N : nat) :
  does_age T = true -> lifespan T = Z.of_nat N ->
  forall w : World,
    current_age (self w) = 0%Z -> is_dead (self w) = false ->
    is_dead (self (repeatedly N (m_phase_aging T) w)) = false /\
    is_dead (self (repeatedly (S N) (m_phase_aging T) w)) = true.
Proof.
  intros Hage HN w H0 Hlive.
  destruct (aging_counts T N Hage w H0 Hlive ltac:(lia)) as [Ha Hd].
  split; [exact Hd|].
  rewrite repeatedly_snoc.
  destruct (m_phase_aging_step T (repeatedly N (m_phase_aging T) w) Hage)
    as [_ Hd'].
  rewrite Hd', Ha, Hd, orb_false_r. apply Z.ltb_lt. lia.
Qed.

(** [m_phase] itself never gets that far: age and death flag are as before
    after any number of M executions. *)
Lemma m_phase_never_ages (T : CellType) (n : nat) :
  forall w : World,
    current_age (self (repeatedly n (m_phase T) w)) = current_age (self w) /\
    is_dead (self (repeatedly n (m_phase T) w)) = is_dead (self w).
Proof.
  induction n as [|n IH]; intros w; cbn [repeatedly]; [split; reflexivity|].
  destruct (IH (Py.after (m_phase T) w)) as [Ha Hd].
  rewrite Ha, Hd. split; reflexivity.
Qed.

(** C7: on an aging type with lifespan [N] a cell starting at age 0 should
    be dead right after its [N + 1]-th M execution and alive after its
    [N]-th; [GenericCell] ages with lifespan 4, and after 4 and after 5
    executions of [m_phase] the cell is alive at age 0. *)
Theorem lifespan_death_not_reached :
  does_age GenericCell = true /\
  lifespan GenericCell = 4%Z /\
  current_age (self dividing) = 0%Z /\
  is_dead (self (repeatedly 4 (m_phase GenericCell) dividing)) = false /\
  is_dead (self (repeatedly 5 (m_phase GenericCell) dividing)) = false /\
  current_age (self (repeatedly 5 (m_phase GenericCell) dividing)) = 0%Z /\
  is_dead (self (repeatedly 5 (m_phase_aging GenericCell) dividing)) = true.
Proof. repeat split. Qed.

(** ** The completeness check *)

Lemma require_all (cls : class) (d : dict) (attrs : list string) :
  forallb (hasattr cls d) attrs = true -> require attrs cls d = Returned d.
Proof.
  induction attrs as [|a rest IH]; cbn [forallb require]; [reflexivity|].
  intros H. apply andb_true_iff in H. destruct H as [Ha Hrest].
  rewrite Ha. exact (IH Hrest).
Qed.

Lemma require_first_missing (cls : class) (d : dict)
    (found : list string) (attr : string) (rest : list string) :
  forallb (hasattr cls d) found = true ->
  hasattr cls d attr = false ->
  require (found ++ attr :: rest)%list cls d
    = Raised (NotImplementedError ("Missing required class attribute: " ++ attr)).
Proof.
  intros Hfound Hmiss.
  induction found as [|a found IH]; cbn [app require].
  - rewrite Hmiss. reflexivity.
  - cbn [forallb] in Hfound. apply andb_true_iff in Hfound.
    destruct Hfound as [Ha Hfound]. rewrite Ha. exact (IH Hfound).
Qed.

(** Once [__init__] has returned, the call hands the instance back when all
    five names resolve and otherwise raises, naming the first one that does
    not. *)
Lemma checked_after_init (cls : class) (args : list arg) (d : dict) :
  type_call cls args = Returned d ->
  (forallb (hasattr cls d) cell_type_attributes = true ->
     CellTypeAttributesMeta_call cls args = Returned d) /\
  (forall (found : list string) (attr : string) (rest : list string),
     cell_type_attributes = (found ++ attr :: rest)%list ->
     forallb (hasattr cls d) found = true ->
     hasattr cls d attr = false ->
     CellTypeAttributesMeta_call cls args
       = Raised
           (NotImplementedError ("Missing required class attribute: " ++ attr))).
Proof.
  intros Hinit. unfold CellTypeAttributesMeta_call. rewrite Hinit. split.
  - apply require_all.
  - intros found attr rest Hsplit Hfound Hmiss. rewrite Hsplit.
    apply require_first_missing; assumption.
Qed.

(** The loop runs only after [__init__]: what [__init__] raises is what
    construction raises. *)
Lemma checked_only_after_init (cls : class) (args : list arg) (e : exn) :
  type_call cls args = Raised e ->
  CellTypeAttributesMeta_call cls args = Raised e.
Proof.
  intros Hinit. unfold CellTypeAttributesMeta_call. rewrite Hinit. reflexivity.
Qed.

(** C4: a type that supplies all five constants should always be
    constructible; [GenericCell] supplies all five and no call of it, with
    whatever arguments, returns an instance: [__init__] raises [TypeError]
    before the loop over the required names is reached. *)
Theorem GenericCell_is_complete_and_unconstructible
    (init_body : Py.t dict unit) (args : list arg) :
  forallb (hasattr (GenericCell_class init_body) []) cell_type_attributes
    = true /\
  CellTypeAttributesMeta_call (GenericCell_class init_body) args
    = Raised (TypeError "__init__(): positional arguments do not match").
Proof.
  split; [reflexivity|].
  apply checked_only_after_init. unfold type_call. cbn [abstractmethods GenericCell_class].
  cbn [init]. unfold GenericCell_init, def. cbn [length].
  destruct args as [|a args]; reflexivity.
Qed.

(** * Further properties of the handlers *)

(** ** One tick, whatever the phase *)

(** The dispatch of lines 95-103 on a given state. *)
Lemma do_cell_cycle_cases (T : CellType) (w : World) :
  do_cell_cycle T w
    = if String.eqb (current_phase (self w)) "G0" then g0_phase T w
      else if String.eqb (current_phase (self w)) "G1" then g1_phase T w
      else if String.eqb (current_phase (self w)) "S" then s_phase T w
      else m_phase T w.
Proof.
  unfold do_cell_cycle, Py.bind, rd.
  destruct (String.eqb (current_phase (self w)) "G0"); [reflexivity|].
  destruct (String.eqb (current_phase (self w)) "G1"); [reflexivity|].
  destruct (String.eqb (current_phase (self w)) "S"); reflexivity.
Qed.

Ltac run_tick :=
  unfold Py.after, Py.result; rewrite ?do_cell_cycle_cases; step;
  unfold bound, get_cyc_len, def; cbn [length Nat.eqb]; step.

Ltac branches :=
  repeat match goal with
         | |- context [if ?c then _ else _] => destruct c eqn:?
         end.

Lemma repeatedly_invariant (P : World -> Prop) (m : Py.t World unit) :
  (forall w, P w -> P (Py.after m w)) ->
  forall (n : nat) (w : World), P w -> P (repeatedly n m w).
Proof.
  intros Hstep n. induction n as [|n IH]; intros w Hw; cbn [repeatedly].
  - exact Hw.
  - apply IH, Hstep, Hw.
Qed.

Lemma frame_refl (w : World) : frame w w.
Proof. unfold frame. repeat split. Qed.

Lemma frame_trans (w1 w2 w3 : World) : frame w1 w2 -> frame w2 w3 -> frame w1 w3.
Proof.
  unfold frame. intros H12 H23.
  destruct H12 as (A1 & A2 & A3 & A4 & A5 & A6 & A7 & A8).
  destruct H23 as (B1 & B2 & B3 & B4 & B5 & B6 & B7 & B8).
  repeat split; congruence.
Qed.

Lemma tick_frame (T : CellType) (w : World) :
  frame w (Py.after (do_cell_cycle T) w).
Proof.
  unfold frame. expose w. run_tick. branches; repeat split.
Qed.

(** X1: however many times a cell is ticked, its seed volume, both sampled
    lengths, its age, its death flag, the oxygen and contact readings and
    the random source are what they were: no tick resamples, ages or kills,
    and none draws a random number. *)
Theorem ticks_keep_frame (T : CellType) (n : nat) (w : World) :
  frame w (repeatedly n (do_cell_cycle T) w).
Proof.
  revert w. induction n as [|n IH]; intros w; cbn [repeatedly].
  - apply frame_refl.
  - eapply frame_trans; [apply tick_frame | apply IH].
Qed.

Lemma tick_with_flag (T : CellType) (w : World) (b : bool) :
  do_cell_cycle T (with_self (set_is_dead b (self w)) w)
    = (with_self (set_is_dead b (self (Py.after (do_cell_cycle T) w)))
         (Py.after (do_cell_cycle T) w),
       Py.result (do_cell_cycle T) w).
Proof.
  expose w. run_tick. branches; reflexivity.
Qed.

(** X2: a tick never reads the death flag: on a cell whose flag is set it
    raises or returns, and assigns, exactly as on the same cell with the
    flag clear. *)
Theorem tick_ignores_is_dead (T : CellType) (w : World) (b : bool) :
  do_cell_cycle T (with_self (set_is_dead b (self w)) w)
    = (with_self (set_is_dead b (self (Py.after (do_cell_cycle T) w)))
         (Py.after (do_cell_cycle T) w),
       Py.result (do_cell_cycle T) w).
Proof. exact (tick_with_flag T w b). Qed.

Lemma tick_iteration_nonneg (T : CellType) (w : World) :
  (0 <= current_cyc_iteration (self w))%Z ->
  (0 <= current_cyc_iteration (self (Py.after (do_cell_cycle T) w)))%Z.
Proof.
  intros H. expose w. run_tick. branches; cbn; lia.
Qed.

(** X3: a counter that is not negative stays so through any number of
    ticks. *)
Theorem iteration_stays_nonnegative (T : CellType) (n : nat) (w : World) :
  (0 <= current_cyc_iteration (self w))%Z ->
  (0 <= current_cyc_iteration (self (repeatedly n (do_cell_cycle T) w)))%Z.
Proof.
  apply (repeatedly_invariant
           (fun w => (0 <= current_cyc_iteration (self w))%Z)).
  apply tick_iteration_nonneg.
Qed.

Lemma iteration_stays_nonnegative_witness :
  (0 <= current_cyc_iteration
          (self (repeatedly 30 (do_cell_cycle GenericCell) ending_G1)))%Z.
Proof.
  apply (iteration_stays_nonnegative GenericCell 30 ending_G1).
  calc.
Defined.

Lemma tick_not_G1 (T : CellType) (w : World) :
  current_phase (self w) <> "G1" ->
  current_phase (self (Py.after (do_cell_cycle T) w)) <> "G1".
Proof.
  intros H. expose w. run_tick.
  branches; cbn; try discriminate; exact H.
Qed.

(** X4: nothing in the tick assigns the tag G1: a cell that has left G1, or
    was never in it, is not in G1 after any number of ticks. *)
Theorem phase_never_returns_to_G1 (T : CellType) (n : nat) (w : World) :
  current_phase (self w) <> "G1" ->
  current_phase (self (repeatedly n (do_cell_cycle T) w)) <> "G1".
Proof.
  apply (repeatedly_invariant (fun w => current_phase (self w) <> "G1")).
  apply tick_not_G1.
Qed.

Lemma phase_never_returns_to_G1_witness :
  current_phase (self (repeatedly 40 (do_cell_cycle GenericCell) ending_S))
    <> "G1".
Proof.
  apply (phase_never_returns_to_G1 GenericCell 40 ending_S).
  discriminate.
Defined.

(** X5: how a tick ends.  In G0 and in S it returns; in G1 it returns unless
    [g1_len] is 0, when it raises [ZeroDivisionError]; under every other
    tag it raises [TypeError]. *)
Theorem tick_outcome (T : CellType) (w : World) :
  Py.result (do_cell_cycle T) w
    = if String.eqb (current_phase (self w)) "G0"
         || String.eqb (current_phase (self w)) "S"
      then Returned tt
      else if String.eqb (current_phase (self w)) "G1"
      then if (g1_len (self w) =? 0)%Z then Raised ZeroDivisionError
           else Returned tt
      else Raised (TypeError "get_cyc_len(): positional arguments do not match").
Proof.
  expose w. run_tick.
  destruct (String.eqb ph_ "G0") eqn:E0; cbn [orb].
  - branches; reflexivity.
  - destruct (String.eqb ph_ "G1") eqn:E1.
    + apply String.eqb_eq in E1. subst ph_. cbn [String.eqb Ascii.eqb Bool.eqb].
      branches; reflexivity.
    + destruct (String.eqb ph_ "S"); branches; reflexivity.
Qed.

Lemma repeatedly_fixed (m : Py.t World unit) (w : World) :
  Py.after m w = w -> forall n : nat, repeatedly n m w = w.
Proof.
  intros Hfix n. induction n as [|n IH]; cbn [repeatedly]; [reflexivity|].
  rewrite Hfix. exact IH.
Qed.

(** X6: a tag the dispatch does not test (M, G2 or any other) is never
    left.  The first tick zeroes the counter and gives the body the seed
    volume; every later tick finds the cell exactly as the first one left
    it. *)
Theorem unhandled_phase_is_absorbing (T : CellType) (n : nat) (w : World) :
  current_phase (self w) <> "G0" -> current_phase (self w) <> "G1" ->
  current_phase (self w) <> "S" ->
  repeatedly (S n) (do_cell_cycle T) w
    = with_self
        (set_current_cyc_iteration 0
           (store_body_vol (seed_vol (self w)) (self w))) w.
Proof.
  intros H0 H1 H2. cbn [repeatedly].
  assert (Hone : Py.after (do_cell_cycle T) w
                 = with_self
                     (set_current_cyc_iteration 0
                        (store_body_vol (seed_vol (self w)) (self w))) w).
  { unfold Py.after. rewrite dispatch_else by assumption.
    rewrite m_phase_effect. reflexivity. }
  rewrite Hone. apply repeatedly_fixed.
  unfold Py.after. rewrite dispatch_else by (expose w; assumption).
  rewrite m_phase_effect. expose w. reflexivity.
Qed.

Lemma unhandled_phase_is_absorbing_witness :
  current_phase
    (self (repeatedly 7 (do_cell_cycle GenericCell)
             (cell_at "G2" 20 24 12 1 2 1 false))) = "G2" /\
  current_vol (self (repeatedly 3 (do_cell_cycle GenericCell) dividing)) = 2%Q
  /\ body_vol (cell_body (self (repeatedly 3 (do_cell_cycle GenericCell)
                                  dividing))) = 1%Q.
Proof.
  rewrite (unhandled_phase_is_absorbing GenericCell 6
             (cell_at "G2" 20 24 12 1 2 1 false))
    by discriminate.
  rewrite (unhandled_phase_is_absorbing GenericCell 2 dividing)
    by discriminate.
  repeat split.
Defined.

(** ** Counting through S *)

(** An S tick counts, and arrests the cell when the count is
    [cyc_len - 1]; it reads nothing of the surroundings that could change
    its effect. *)
Lemma s_tick (T : CellType) (w : World) :
  current_phase (self w) = "S" ->
  do_cell_cycle T w
    = (with_self
         (let c := set_current_cyc_iteration
                     (current_cyc_iteration (self w) + 1) (self w) in
          if (current_cyc_iteration (self w) + 1 =? cyc_len (self w) - 1)%Z
          then set_current_phase "G0" c else c) w,
       Returned tt).
Proof.
  intros H. rewrite (dispatch_S T w H). expose w. step.
  branches; reflexivity.
Qed.

Lemma s_ticks_count (T : CellType) (n : nat) :
  forall w : World,
    current_phase (self w) = "S" ->
    (forall j : nat, (0 < j <= n)%nat ->
       (current_cyc_iteration (self w) + Z.of_nat j)%Z <> (cyc_len (self w) - 1)%Z) ->
    repeatedly n (do_cell_cycle T) w
      = with_self
          (set_current_cyc_iteration
             (current_cyc_iteration (self w) + Z.of_nat n) (self w)) w.
Proof.
  induction n as [|n IH]; intros w Hph Hne.
  - expose w. cbn [repeatedly Z.of_nat]. unfold with_self, set_current_cyc_iteration.
    cbn. rewrite Z.add_0_r. reflexivity.
  - cbn [repeatedly]. unfold Py.after. rewrite (s_tick T w Hph). cbn [fst].
    pose proof (Hne 1%nat ltac:(lia)) as H1. cbn [Z.of_nat Pos.of_succ_nat] in H1.
    apply Z.eqb_neq in H1. rewrite H1.
    rewrite IH.
    + expose w. unfold with_self, set_current_cyc_iteration. cbn.
      do 2 f_equal. lia.
    + expose w. exact Hph.
    + intros j Hj. specialize (Hne (S j) ltac:(lia)).
      expose w. cbn. lia.
Qed.

Lemma s_run (T : CellType) (k : nat) (w : World) :
  current_phase (self w) = "S" ->
  (0 < k)%nat ->
  (current_cyc_iteration (self w) + Z.of_nat k = cyc_len (self w) - 1)%Z ->
  repeatedly k (do_cell_cycle T) w
    = with_self
        (set_current_phase "G0"
           (set_current_cyc_iteration (cyc_len (self w) - 1) (self w))) w /\
  (forall j : nat, (j < k)%nat ->
     current_phase (self (repeatedly j (do_cell_cycle T) w)) = "S").
Proof.
  intros Hph Hk Hend. split.
  - destruct k as [|k]; [lia|].
    rewrite repeatedly_snoc, (s_ticks_count T k w Hph) by (intros; lia).
    unfold Py.after. rewrite s_tick by (expose w; exact Hph).
    expose w. cbn.
    replace (it_ + Z.of_nat k + 1 =? cl_ - 1)%Z with true
      by (symmetry; apply Z.eqb_eq; lia).
    unfold with_self, set_current_phase, set_current_cyc_iteration. cbn.
    do 2 f_equal. lia.
  - intros j Hj. rewrite (s_ticks_count T j w Hph) by (intros; lia).
    expose w. exact Hph.
Qed.

(** X7: S lasts until the counter is [cyc_len - 1] and then ends in G0,
    whatever the oxygen level and the contact flag: from a cell in S that is
    [k > 0] ticks short, the first [k - 1] ticks keep it in S and tick [k]
    leaves it in G0 with the counter at [cyc_len - 1] and nothing else
    changed. *)
Theorem s_counts_down_to_G0 (T : CellType) (k : nat) (w : World) :
  current_phase (self w) = "S" ->
  (0 < k)%nat ->
  (current_cyc_iteration (self w) + Z.of_nat k = cyc_len (self w) - 1)%Z ->
  repeatedly k (do_cell_cycle T) w
    = with_self
        (set_current_phase "G0"
           (set_current_cyc_iteration (cyc_len (self w) - 1) (self w))) w /\
  (forall j : nat, (j < k)%nat ->
     current_phase (self (repeatedly j (do_cell_cycle T) w)) = "S").
Proof. exact (s_run T k w). Qed.

Lemma s_counts_down_to_G0_witness :
  repeatedly 5 (do_cell_cycle GenericCell) (cell_at "S" 18 24 12 1 2 1 false)
    = cell_at "G0" 23 24 12 1 2 1 false.
Proof.
  apply (s_counts_down_to_G0 GenericCell 5 (cell_at "S" 18 24 12 1 2 1 false)).
  - reflexivity.
  - lia.
  - reflexivity.
Defined.

(** X8: the exit test of S is an equality.  A cell in S whose counter is
    already at or past [cyc_len - 1] stays in S for good: each tick only
    counts. *)
Theorem s_overshoot_never_exits (T : CellType) (n : nat) (w : World) :
  current_phase (self w) = "S" ->
  (cyc_len (self w) - 1 <= current_cyc_iteration (self w))%Z ->
  repeatedly n (do_cell_cycle T) w
    = with_self
        (set_current_cyc_iteration
           (current_cyc_iteration (self w) + Z.of_nat n) (self w)) w.
Proof.
  intros Hph Hpast. apply s_ticks_count; [exact Hph|]. intros j Hj. lia.
Qed.

Lemma s_overshoot_never_exits_witness :
  repeatedly 50 (do_cell_cycle GenericCell) (cell_at "S" 1 2 1 1 2 1 false)
    = cell_at "S" 51 2 1 1 2 1 false.
Proof.
  apply (s_overshoot_never_exits GenericCell 50
           (cell_at "S" 1 2 1 1 2 1 false)).
  - reflexivity.
  - calc.
Defined.

(** ** Leaving and staying in G0 *)

Lemma g0_tick (T : CellType) (w : World) :
  current_phase (self w) = "G0" ->
  do_cell_cycle T w
    = (if negb (inhibited w) && Py.Qltb (g0_oxy_threshold T) (oxygen w)
       then with_self
              (set_current_phase
                 (if (current_cyc_iteration (self w) =? g1_len (self w))%Z
                  then "S" else "M") (self w)) w
       else w,
       Returned tt).
Proof.
  intros H. rewrite (dispatch_G0 T w H). expose w. step.
  destruct inh_; cbn [negb andb]; branches; reflexivity.
Qed.

(** X9: the way from S to M leads through G0 and takes two ticks.  An
    unstressed cell on its last S tick is in G0 after it and, after the
    next, in M when [cyc_len - 1] differs from [g1_len], but back in S when
    the two are equal. *)
Theorem s_exit_then_resume (T : CellType) (w : World) :
  current_phase (self w) = "S" ->
  (current_cyc_iteration (self w) + 1 = cyc_len (self w) - 1)%Z ->
  inhibited w = false ->
  (g0_oxy_threshold T < oxygen w)%Q ->
  repeatedly 2 (do_cell_cycle T) w
    = with_self
        (set_current_phase
           (if (cyc_len (self w) - 1 =? g1_len (self w))%Z then "S" else "M")
           (set_current_cyc_iteration (cyc_len (self w) - 1) (self w))) w.
Proof.
  intros Hph Hend Hinh Hox. apply Qltb_true in Hox.
  cbn [repeatedly]. unfold Py.after at 2. rewrite (s_tick T w Hph). cbn [fst].
  apply Z.eqb_eq in Hend. rewrite Hend. apply Z.eqb_eq in Hend.
  unfold Py.after. rewrite g0_tick by (expose w; reflexivity).
  expose w. unfold oxygen, inhibited in *. cbn in *. subst inh_.
  rewrite Hox. cbn. rewrite Hend. reflexivity.
Qed.

Lemma s_exit_then_resume_witness :
  repeatedly 2 (do_cell_cycle GenericCell) ending_S
    = cell_at "M" 23 24 12 1 2 1 false /\
  repeatedly 2 (do_cell_cycle GenericCell) (cell_at "S" 0 2 1 1 2 1 false)
    = cell_at "S" 1 2 1 1 2 1 false.
Proof.
  split.
  - apply (s_exit_then_resume GenericCell ending_S); reflexivity.
  - apply (s_exit_then_resume GenericCell (cell_at "S" 0 2 1 1 2 1 false));
      reflexivity.
Defined.

(** X10: a cell in G0 whose surroundings stay as they are, with contact
    inhibition or oxygen not above [g0_oxy_threshold], is not changed by
    any number of ticks. *)
Theorem g0_stays_under_stress (T : CellType) (n : nat) (w : World) :
  current_phase (self w) = "G0" ->
  inhibited w = true \/ ~ (g0_oxy_threshold T < oxygen w)%Q ->
  repeatedly n (do_cell_cycle T) w = w.
Proof.
  intros Hph Hstress. apply repeatedly_fixed.
  unfold Py.after. rewrite (g0_tick T w Hph).
  destruct Hstress as [Hinh|Hox].
  - rewrite Hinh. reflexivity.
  - apply Qltb_false in Hox. rewrite Hox, andb_false_r. reflexivity.
Qed.

Lemma g0_stays_under_stress_witness :
  repeatedly 9 (do_cell_cycle GenericCell) (cell_at "G0" 12 24 12 1 2 1 true)
    = cell_at "G0" 12 24 12 1 2 1 true.
Proof.
  apply (g0_stays_under_stress GenericCell 9
           (cell_at "G0" 12 24 12 1 2 1 true)).
  - reflexivity.
  - left. reflexivity.
Defined.

(** The phase a G1 tick leaves behind, when it returns. *)
Lemma g1_phase_exit (T : CellType) (w : World) :
  g1_len (self w) <> 0%Z ->
  current_phase (self (Py.after (g1_phase T) w))
    = if (current_cyc_iteration (self w) + 1 =? g1_len (self w))%Z
      then if stressed T w then "G0" else "S"
      else current_phase (self w).
Proof.
  intros Hn. unfold stressed. expose w. step.
  destruct (Z.eqb_spec gl_ 0) as [->|_]; [contradiction|].
  destruct (it_ + 1 =? gl_)%Z; [|reflexivity].
  destruct (Py.Qltb (subst_ "oxygen") (g0_oxy_threshold T)); [reflexivity|].
  destruct inh_; reflexivity.
Qed.

(** X11: with oxygen exactly at [g0_oxy_threshold] and no contact
    inhibition the two tests disagree: a cell completing G1 is let through
    to S, while a cell waiting in G0 is not resumed. *)
Theorem threshold_edge (T : CellType) (w : World) :
  (oxygen w == g0_oxy_threshold T)%Q ->
  inhibited w = false ->
  (current_phase (self w) = "G1" ->
   (current_cyc_iteration (self w) + 1)%Z = g1_len (self w) ->
   g1_len (self w) <> 0%Z ->
   current_phase (self (Py.after (do_cell_cycle T) w)) = "S") /\
  (current_phase (self w) = "G0" ->
   Py.after (do_cell_cycle T) w = w).
Proof.
  intros Heq Hinh.
  assert (Hlow : Py.Qltb (oxygen w) (g0_oxy_threshold T) = false).
  { apply Qltb_false. rewrite Heq. apply Qlt_irrefl. }
  assert (Hhigh : Py.Qltb (g0_oxy_threshold T) (oxygen w) = false).
  { apply Qltb_false. rewrite Heq. apply Qlt_irrefl. }
  split.
  - intros Hph Hreach Hn. unfold Py.after. rewrite (dispatch_G1 T w Hph).
    fold (Py.after (g1_phase T) w). rewrite (g1_phase_exit T w Hn).
    apply Z.eqb_eq in Hreach. rewrite Hreach.
    unfold stressed. rewrite Hlow, Hinh. reflexivity.
  - intros Hph. unfold Py.after. rewrite (g0_tick T w Hph).
    rewrite Hhigh, andb_false_r. reflexivity.
Qed.

Lemma threshold_edge_witness :
  current_phase
    (self (Py.after (do_cell_cycle GenericCell)
             (cell_at "G1" 11 24 12 1 (23 # 12) (1 # 2) false))) = "S" /\
  Py.after (do_cell_cycle GenericCell) (cell_at "G0" 12 24 12 1 2 (2 # 4) false)
    = cell_at "G0" 12 24 12 1 2 (2 # 4) false.
Proof.
  destruct (threshold_edge GenericCell
              (cell_at "G1" 11 24 12 1 (23 # 12) (1 # 2) false))
    as [Hg1 _]; [reflexivity | reflexivity |].
  destruct (threshold_edge GenericCell
              (cell_at "G0" 12 24 12 1 2 (2 # 4) false))
    as [_ Hg0]; [reflexivity | reflexivity |].
  split.
  - apply Hg1; [reflexivity | reflexivity | discriminate].
  - apply Hg0. reflexivity.
Defined.

(** ** Hypoxic death beside the tick *)

Lemma hypoxic_after (T : CellType) (w : World) :
  Py.after (hypoxic_death T) w
    = if Py.Qltb (oxygen w) (hypoxia_theshold T)
      then with_self (set_is_dead true (self w)) w else w.
Proof.
  expose w. step.
  destruct (Py.Qltb (subst_ "oxygen") (hypoxia_theshold T)); reflexivity.
Qed.

(** X12: the hypoxia check and the tick can be made in either order: the
    tick ends the same way and the cell is left in the same state.  Checking
    twice is the same as checking once. *)
Theorem hypoxic_death_commutes_with_tick (T : CellType) (w : World) :
  Py.after (hypoxic_death T) (Py.after (do_cell_cycle T) w)
    = Py.after (do_cell_cycle T) (Py.after (hypoxic_death T) w) /\
  Py.result (do_cell_cycle T) (Py.after (hypoxic_death T) w)
    = Py.result (do_cell_cycle T) w /\
  Py.after (hypoxic_death T) (Py.after (hypoxic_death T) w)
    = Py.after (hypoxic_death T) w.
Proof.
  pose proof (tick_frame T w) as (_ & _ & _ & _ & _ & Hsub & _ & _).
  assert (Hoxy : oxygen (Py.after (do_cell_cycle T) w) = oxygen w)
    by (unfold oxygen; rewrite Hsub; reflexivity).
  rewrite !hypoxic_after, Hoxy.
  destruct (Py.Qltb (oxygen w) (hypoxia_theshold T)) eqn:Hhyp.
  - unfold Py.after at 3, Py.result at 1. rewrite tick_with_flag. cbn [fst snd].
    assert (Hsame : oxygen (with_self (set_is_dead true (self w)) w) = oxygen w)
      by (expose w; reflexivity).
    rewrite Hsame, Hhyp. repeat split.
  - rewrite Hhyp. repeat split.
Qed.

(** X13: in G0, G1 and S a tick keeps the body's volume equal to the
    cell's [current_vol]. *)
Theorem body_volume_in_sync (T : CellType) (w : World) :
  current_phase (self w) = "G0" \/ current_phase (self w) = "G1"
    \/ current_phase (self w) = "S" ->
  body_vol (cell_body (self w)) = current_vol (self w) ->
  body_vol (cell_body (self (Py.after (do_cell_cycle T) w)))
    = current_vol (self (Py.after (do_cell_cycle T) w)).
Proof.
  intros Hph Hsync. expose w.
  destruct Hph as [E | [E | E]]; subst ph_; run_tick;
    cbn [String.eqb Ascii.eqb Bool.eqb]; branches; cbn; congruence.
Qed.

Lemma body_volume_in_sync_witness :
  body_vol (cell_body (self (Py.after (do_cell_cycle GenericCell) ending_G1)))
    = current_vol (self (Py.after (do_cell_cycle GenericCell) ending_G1)).
Proof.
  apply (body_volume_in_sync GenericCell ending_G1).
  - right. left. reflexivity.
  - reflexivity.
Defined.

(** ** Through G1 and past it *)

Lemma ticks_frame (T : CellType) (k : nat) :
  forall w : World, frame w (Py.after (ticks T k) w).
Proof.
  induction k as [|k IH]; intros w.
  - apply frame_refl.
  - pose proof (tick_frame T w) as H1. unfold Py.after in *.
    cbn [ticks]. unfold Py.bind.
    destruct (do_cell_cycle T w) as [w1 [[]|e]]; cbn [fst] in *.
    + eapply frame_trans; [exact H1 | apply IH].
    + exact H1.
Qed.

Lemma ticks_snoc (T : CellType) (k : nat) :
  forall w wk : World,
    ticks T k w = (wk, Returned tt) ->
    ticks T (S k) w = do_cell_cycle T wk.
Proof.
  induction k as [|k IH]; intros w wk Hrun.
  - cbn [ticks] in *. unfold Py.ret in Hrun. injection Hrun as <-.
    unfold Py.bind, Py.ret. destruct (do_cell_cycle T w) as [w1 [[]|e]];
      reflexivity.
  - change (ticks T (S (S k)) w)
      with (Py.bind (do_cell_cycle T) (fun _ => ticks T (S k)) w).
    cbn [ticks] in Hrun. unfold Py.bind in *.
    destruct (do_cell_cycle T w) as [w1 [[]|e]]; [|discriminate].
    exact (IH w1 wk Hrun).
Qed.

(** While the counter does not meet [g1_len], G1 ticks count and stay. *)
Lemma g1_ticks_unreached (T : CellType) (k : nat) :
  forall w : World,
    current_phase (self w) = "G1" ->
    g1_len (self w) <> 0%Z ->
    (forall j : nat, (0 < j <= k)%nat ->
       (current_cyc_iteration (self w) + Z.of_nat j)%Z <> g1_len (self w)) ->
    current_phase (self (Py.after (ticks T k) w)) = "G1" /\
    current_cyc_iteration (self (Py.after (ticks T k) w))
      = (current_cyc_iteration (self w) + Z.of_nat k)%Z.
Proof.
  induction k as [|k IH]; intros w Hph Hn Hne.
  - cbn. split; [exact Hph | lia].
  - destruct (g1_phase_grows T w Hn) as (w1 & Hrun & _ & _ & Hit & _ & Hgl).
    pose proof (g1_phase_exit T w Hn) as Hexit.
    pose proof (Hne 1%nat ltac:(lia)) as H1. cbn [Z.of_nat Pos.of_succ_nat] in H1.
    apply Z.eqb_neq in H1. rewrite H1 in Hexit.
    unfold Py.after in Hexit. rewrite Hrun in Hexit. cbn [fst] in Hexit.
    rewrite <- (dispatch_G1 T w Hph) in Hrun.
    unfold Py.after. rewrite (ticks_succ T k w w1 Hrun).
    destruct (IH w1) as [Hph' Hit'].
    + congruence.
    + congruence.
    + intros j Hj. specialize (Hne (S j) ltac:(lia)). rewrite Hit, Hgl. lia.
    + unfold Py.after in *. split; [exact Hph'|]. rewrite Hit', Hit. lia.
Qed.

(** X14: the exit test of G1 is an equality too.  A cell in G1 whose
    counter has already reached or passed a non-zero [g1_len] (a negative
    draw, for one) never leaves G1: every tick returns, counts and makes one
    more rounded addition of the double [seed_vol / g1_len] to the volume,
    without end. *)
Theorem g1_overshoot_never_exits (T : CellType) (n : nat) (w : World) :
  current_phase (self w) = "G1" ->
  g1_len (self w) <> 0%Z ->
  (g1_len (self w) <= current_cyc_iteration (self w))%Z ->
  Py.result (ticks T n) w = Returned tt /\
  current_phase (self (Py.after (ticks T n) w)) = "G1" /\
  current_cyc_iteration (self (Py.after (ticks T n) w))
    = (current_cyc_iteration (self w) + Z.of_nat n)%Z /\
  current_vol (self (Py.after (ticks T n) w))
    = F.grow n (current_vol (self w))
        (F.div (seed_vol (self w)) (F.of_int (g1_len (self w)))).
Proof.
  intros Hph Hn Hpast.
  destruct (g1_ticks_unreached T n w Hph Hn) as [Hph' Hit']; [intros; lia|].
  destruct (g1_ticks_accumulate T n w Hn) as (w' & Hrun & Hsum & _ & _).
  - intros j Hj. apply g1_ticks_unreached; [exact Hph | exact Hn | intros; lia].
  - unfold Py.result, Py.after in *. rewrite Hrun in *. cbn [fst snd] in *.
    repeat split; assumption.
Qed.

Lemma g1_overshoot_never_exits_witness :
  current_phase
    (self (Py.after (ticks GenericCell 3)
             (cell_at "G1" 0 (-5) (-3) 1 1 1 false))) = "G1" /\
  current_vol
    (self (Py.after (ticks GenericCell 3)
             (cell_at "G1" 0 (-5) (-3) 1 1 1 false)))
    = F.Num (1 # 9007199254740992).
Proof.
  destruct (g1_overshoot_never_exits GenericCell 3
              (cell_at "G1" 0 (-5) (-3) 1 1 1 false))
    as (_ & Hph & _ & Hvol).
  - reflexivity.
  - calc.
  - calc.
  - split; [exact Hph|]. rewrite Hvol. vm_compute. reflexivity.
Defined.

Lemma g1_run (T : CellType) (w : World) (L : nat) :
  (0 < L)%nat ->
  current_phase (self w) = "G1" ->
  current_cyc_iteration (self w) = 0%Z ->
  g1_len (self w) = Z.of_nat L ->
  current_vol (self w) = seed_vol (self w) ->
  let w' := Py.after (ticks T L) w in
  Py.result (ticks T L) w = Returned tt /\
  current_phase (self w') = (if stressed T w then "G0" else "S") /\
  current_cyc_iteration (self w') = Z.of_nat L /\
  current_vol (self w')
    = F.grow L (seed_vol (self w))
        (F.div (seed_vol (self w)) (F.of_int (Z.of_nat L))) /\
  body_vol (cell_body (self w')) = current_vol (self w') /\
  (forall s : Q,
     seed_vol (self w) = F.Num s ->
     (Z.of_nat L < 2 ^ 52)%Z ->
     (inject_Z (Z.of_nat L) * F.pow2 (-1021) <= s)%Q -> (s <= F.pow2 1021)%Q ->
     exists v : Q,
       current_vol (self w') = F.Num v /\
       (Qabs (v - s * 2) <= tolerance L * (s * 2))%Q).
Proof.
  intros HL Hph Hit Hgl Hvol w'. subst w'.
  assert (Hn : g1_len (self w) <> 0%Z) by lia.
  assert (Hstay : forall j, (j < L)%nat ->
            current_phase (self (Py.after (ticks T j) w)) = "G1").
  { intros j Hj. apply g1_ticks_unreached; [exact Hph | exact Hn | intros; lia]. }
  destruct (g1_ticks_accumulate T L w Hn Hstay) as (wL & HrunL & HsumL & _ & _).
  assert (Hgrow : current_vol (self (Py.after (ticks T L) w))
                  = F.grow L (seed_vol (self w))
                      (F.div (seed_vol (self w)) (F.of_int (Z.of_nat L)))).
  { unfold Py.after. rewrite HrunL. cbn [fst]. rewrite HsumL, Hvol, Hgl.
    reflexivity. }
  assert (Htol : forall s : Q,
            seed_vol (self w) = F.Num s ->
            (Z.of_nat L < 2 ^ 52)%Z ->
            (inject_Z (Z.of_nat L) * F.pow2 (-1021) <= s)%Q ->
            (s <= F.pow2 1021)%Q ->
            exists v : Q,
              current_vol (self (Py.after (ticks T L) w)) = F.Num v /\
              (Qabs (v - s * 2) <= tolerance L * (s * 2))%Q).
  { intros s Hs Htop Hlow Hhigh. rewrite Hgrow, Hs.
    exact (grow_within_tolerance s L HL Htop Hlow Hhigh). }
  clear HrunL HsumL wL Hstay.
  destruct L as [|k]; [lia|].
  destruct (g1_ticks_unreached T k w Hph Hn) as [Hphk Hitk]; [intros; lia|].
  destruct (g1_ticks_accumulate T k w Hn) as (wk & Hrun & _ & _ & Hglk).
  { intros j Hj. apply g1_ticks_unreached; [exact Hph | exact Hn | intros; lia]. }
  pose proof (ticks_frame T k w) as (_ & _ & _ & _ & _ & Hsub & Hinh & _).
  unfold Py.after in Hphk, Hitk, Hsub, Hinh. rewrite Hrun in *. cbn [fst] in *.
  assert (Hnk : g1_len (self wk) <> 0%Z) by congruence.
  destruct (g1_phase_grows T wk Hnk)
    as (w' & Hlast & _ & Hbody & Hit' & _ & _).
  pose proof (g1_phase_exit T wk Hnk) as Hexit.
  unfold Py.after in Hexit. rewrite Hlast in Hexit. cbn [fst] in Hexit.
  unfold Py.result, Py.after in *.
  rewrite (ticks_snoc T k w wk Hrun), (dispatch_G1 T wk Hphk), Hlast in *.
  cbn [fst snd] in *.
  split; [reflexivity|]. split.
  { rewrite Hexit.
    replace (current_cyc_iteration (self wk) + 1 =? g1_len (self wk))%Z
      with true by (symmetry; apply Z.eqb_eq; lia).
    unfold stressed, oxygen, inhibited. rewrite Hsub, Hinh. reflexivity. }
  split; [lia|]. split; [exact Hgrow|]. split; [exact Hbody | exact Htol].
Qed.

(** X16: a whole G1.  A cell in G1 with the counter at 0, [g1_len = L > 0]
    and [current_vol] at the seed volume is ticked [L] times: every tick
    returns, the counter ends at [L], the volume is the seed volume after
    [L] rounded additions of the double [seed_vol / L], the body has been
    given that volume, and the cell is in G0 if it is stressed (oxygen below
    [g0_oxy_threshold] or contact inhibition) and in S if not.  When
    [L < 2^52] and the seed volume is a double [s] between [L * 2^-1021] and
    [2^1021], the final volume is finite and within the relative error
    [tolerance L] of [s * 2]. *)
Theorem g1_completes (T : CellType) (w : World) (L : nat) :
  (0 < L)%nat ->
  current_phase (self w) = "G1" ->
  current_cyc_iteration (self w) = 0%Z ->
  g1_len (self w) = Z.of_nat L ->
  current_vol (self w) = seed_vol (self w) ->
  let w' := Py.after (ticks T L) w in
  Py.result (ticks T L) w = Returned tt /\
  current_phase (self w') = (if stressed T w then "G0" else "S") /\
  current_cyc_iteration (self w') = Z.of_nat L /\
  current_vol (self w')
    = F.grow L (seed_vol (self w))
        (F.div (seed_vol (self w)) (F.of_int (Z.of_nat L))) /\
  body_vol (cell_body (self w')) = current_vol (self w') /\
  (forall s : Q,
     seed_vol (self w) = F.Num s ->
     (Z.of_nat L < 2 ^ 52)%Z ->
     (inject_Z (Z.of_nat L) * F.pow2 (-1021) <= s)%Q -> (s <= F.pow2 1021)%Q ->
     exists v : Q,
       current_vol (self w') = F.Num v /\
       (Qabs (v - s * 2) <= tolerance L * (s * 2))%Q).
Proof. exact (g1_run T w L). Qed.

Lemma g1_completes_witness :
  current_phase
    (self (Py.after (ticks GenericCell 12)
             (cell_at "G1" 0 24 12 10 10 1 false))) = "S" /\
  exists v : Q,
    current_vol
      (self (Py.after (ticks GenericCell 12)
               (cell_at "G1" 0 24 12 10 10 1 false))) = F.Num v /\
    (Qabs (v - 10 * 2) <= tolerance 12 * (10 * 2))%Q.
Proof.
  destruct (g1_completes GenericCell (cell_at "G1" 0 24 12 10 10 1 false) 12)
    as (_ & Hph & _ & _ & _ & Htol).
  - lia.
  - reflexivity.
  - reflexivity.
  - reflexivity.
  - reflexivity.
  - split; [exact Hph|]. apply (Htol 10%Q).
    + reflexivity.
    + calc.
    + vm_compute. discriminate.
    + vm_compute. discriminate.
Defined.

(** * Further properties of construction *)

Lemma require_sound (attrs : list string) (cls : class) (d d' : dict) :
  require attrs cls d = Returned d' ->
  d' = d /\ forallb (hasattr cls d) attrs = true.
Proof.
  induction attrs as [|a rest IH]; cbn [require forallb].
  - intros H. injection H as <-. split; reflexivity.
  - destruct (hasattr cls d a); [|discriminate].
    intros H. destruct (IH H) as [-> Hrest]. split; [reflexivity | exact Hrest].
Qed.

Lemma require_missing (attrs : list string) (cls : class) (d : dict) :
  forallb (hasattr cls d) attrs = false ->
  exists (found : list string) (attr : string) (rest : list string),
    attrs = (found ++ attr :: rest)%list /\
    forallb (hasattr cls d) found = true /\
    hasattr cls d attr = false /\
    require attrs cls d
      = Raised (NotImplementedError ("Missing required class attribute: " ++ attr)).
Proof.
  induction attrs as [|a tl IH]; cbn [forallb require]; [discriminate|].
  destruct (hasattr cls d a) eqn:Ha; cbn [andb].
  - intros H. destruct (IH H) as (found & attr & rest & -> & Hf & Hm & Hr).
    exists (a :: found), attr, rest. cbn [forallb]. rewrite Ha, Hf.
    repeat split; assumption.
  - intros _. exists [], a, tl. repeat split. exact Ha.
Qed.

(** X17: construction returns an instance exactly when the class has no abstract
    method left, its [__init__] returned, and each of the five required
    names resolves on the instance or on the class; and then it returns the
    instance [__init__] built. *)
Theorem construction_sound (cls : class) (args : list arg) (d : dict) :
  CellTypeAttributesMeta_call cls args = Returned d <->
  abstractmethods cls = [] /\
  Py.result (init cls (Instance :: args)) [] = Returned tt /\
  Py.after (init cls (Instance :: args)) [] = d /\
  forallb (hasattr cls d) cell_type_attributes = true.
Proof.
  unfold CellTypeAttributesMeta_call, type_call, Py.result, Py.after.
  destruct (abstractmethods cls) as [|m ms].
  - destruct (init cls (Instance :: args) []) as [d0 [[]|e]]; cbn [fst snd].
    + split.
      * intros H. destruct (require_sound _ _ _ _ H) as [-> Hall].
        repeat split. exact Hall.
      * intros (_ & _ & <- & Hall). apply require_all. exact Hall.
    + split; [discriminate | intros (_ & H & _); discriminate].
  - split; [discriminate | intros (H & _); discriminate].
Qed.

Lemma construction_sound_witness :
  CellTypeAttributesMeta_call complete_type [] = Returned [].
Proof.
  apply (construction_sound complete_type [] []).
  repeat split.
Defined.

(** X18: when [__init__] has returned and some required name does not
    resolve, construction raises [NotImplementedError] whose message ends
    in the first such name in the order of [cell_type_attributes]. *)
Theorem missing_attribute_named (cls : class) (args : list arg) (d : dict) :
  type_call cls args = Returned d ->
  forallb (hasattr cls d) cell_type_attributes = false ->
  exists (found : list string) (attr : string) (rest : list string),
    cell_type_attributes = (found ++ attr :: rest)%list /\
    forallb (hasattr cls d) found = true /\
    hasattr cls d attr = false /\
    CellTypeAttributesMeta_call cls args
      = Raised (NotImplementedError ("Missing required class attribute: " ++ attr)).
Proof.
  intros Hinit Hmiss. unfold CellTypeAttributesMeta_call. rewrite Hinit.
  apply require_missing. exact Hmiss.
Qed.

Lemma missing_attribute_named_witness :
  exists (found : list string) (attr : string) (rest : list string),
    cell_type_attributes = (found ++ attr :: rest)%list /\
    forallb (hasattr ageless_type []) found = true /\
    hasattr ageless_type [] attr = false /\
    CellTypeAttributesMeta_call ageless_type []
      = Raised (NotImplementedError ("Missing required class attribute: " ++ attr)).
Proof.
  apply (missing_attribute_named ageless_type [] []); reflexivity.
Defined.

(** * Further properties of the sampler *)

(** X19: [get_g1_len] on a cell whose [cyc_len] is negative raises
    [ValueError] and takes nothing from the random source; otherwise it
    ends as [int()] does on the double [g1_draw], the draw cut toward zero,
    takes exactly one deviate and leaves the cell as it is. *)
Theorem get_g1_len_regimes (w : World) :
  ((cyc_len (self w) < 0)%Z ->
     bound get_g1_len w = (w, Raised (ValueError "scale < 0"))) /\
  ((0 <= cyc_len (self w))%Z ->
     Py.result (bound get_g1_len) w = Py.result (Py.int (g1_draw w)) w /\
     self (Py.after (bound get_g1_len) w) = self w /\
     consumed (np_random (Py.after (bound get_g1_len) w))
       = S (consumed (np_random w)) /\
     gauss (np_random (Py.after (bound get_g1_len) w)) = gauss (np_random w)).
Proof.
  unfold Py.result, Py.after. rewrite get_g1_len_bound.
  split; intros H.
  - apply Z.ltb_lt in H. rewrite H. reflexivity.
  - apply Z.ltb_ge in H. rewrite H. unfold Py.int.
    destruct (g1_draw w) as [x|s|]; [destruct (DInt.of_Z_opt (F.trunc x))| |];
      repeat split.
Qed.

Lemma get_g1_len_regimes_witness :
  bound get_g1_len (cell_at "M" 0 (-3) 12 1 1 1 false)
    = (cell_at "M" 0 (-3) 12 1 1 1 false, Raised (ValueError "scale < 0")) /\
  Py.result (bound get_g1_len) (cell_at "M" 0 24 5 1 1 1 false)
    = Returned (DInt.of_Z 12) /\
  Py.result (bound get_g1_len)
    (with_deviate (3752999689475413 # 4503599627370496)
       (cell_at "M" 0 24 5 1 1 1 false))
    = Returned (DInt.of_Z 13).
Proof.
  destruct (get_g1_len_regimes (cell_at "M" 0 (-3) 12 1 1 1 false))
    as [Hneg _].
  destruct (get_g1_len_regimes (cell_at "M" 0 24 5 1 1 1 false))
    as [_ Hpos].
  destruct (get_g1_len_regimes
              (with_deviate (3752999689475413 # 4503599627370496)
                 (cell_at "M" 0 24 5 1 1 1 false)))
    as [_ Hup].
  split; [|split].
  - apply Hneg. calc.
  - destruct Hpos as [Hres _]; [calc|]. rewrite Hres. vm_compute. reflexivity.
  - destruct Hup as [Hres _]; [calc|]. rewrite Hres. vm_compute. reflexivity.
Defined.

(** Linear arithmetic over the error terms of a rounding. *)
Ltac errors :=
  unfold F.u in *;
  set (eta := F.pow2 (-1075)) in *; set (d_max := F.max_double) in *;
  lra.

(** For a [cyc_len] up to [2^51] and a deviate within ten standard
    deviations, the draw stays within one of the interval from 0 to
    [cyc_len]: its four roundings move it by less than [4 * 2^-53] of
    [cyc_len] in all. *)
Lemma g1_draw_range (n : Z) (z : Q) :
  (0 <= n <= 2 ^ 51)%Z -> (- (10) <= z)%Q -> (z <= 10)%Q ->
  exists v : Q,
    F.add (F.div (F.of_int n) 2%Q)
      (F.mul (F.div (F.div (F.of_int n) 2%Q) 10%Q) z) = F.Num v /\
    (- (1) < v)%Q /\ (v < inject_Z n + 1)%Q.
Proof.
  intros [Hn0 Hn1] Hzlo Hzhi.
  assert (Hof : F.of_int n = F.Num (inject_Z n)).
  { unfold F.of_int.
    replace (Z.abs n <=? 2 ^ 53)%Z with true; [reflexivity|].
    symmetry. apply Z.leb_le. lia. }
  rewrite Hof.
  assert (Ha0 : (0 <= inject_Z n)%Q).
  { change 0%Q with (inject_Z 0). rewrite <- Zle_Qle. exact Hn0. }
  assert (Ha1 : (inject_Z n <= 2251799813685248)%Q).
  { change 2251799813685248%Q with (inject_Z (2 ^ 51)). rewrite <- Zle_Qle.
    exact Hn1. }
  set (a := inject_Z n) in *.
  assert (Hmax : (9007199254740992 <= F.max_double)%Q)
    by (vm_compute; discriminate).
  assert (Heta : (F.pow2 (-1075) <= 1 # 1152921504606846976)%Q)
    by (vm_compute; discriminate).
  pose proof (FloatFacts.pow2_pos (-1075)) as Heta0.
  cbn [F.div]. change (Qeq_bool 2 0) with false. cbv iota.
  assert (Ea : (a / 2 == a * (1 # 2))%Q) by field.
  destruct (FloatFacts.round_err (a / 2) (a * (1 # 2)))
    as (m & Hm & Hmlo & Hmhi); [errors ..|].
  rewrite Hm.
  cbn [F.div]. change (Qeq_bool 10 0) with false. cbv iota.
  assert (Em : (m / 10 == m * (1 # 10))%Q) by field.
  destruct (FloatFacts.round_err (m / 10) (a * (1 # 16) + F.pow2 (-1075)))
    as (s & Hs & Hslo & Hshi); [errors ..|].
  rewrite Hs. cbn [F.mul].
  destruct (FloatFacts.mul_bound s z
              (a * (1 # 20) + a * F.u * (1 # 8) + 3 * F.pow2 (-1075)) 10)
    as [Htlo Hthi]; [errors ..|].
  destruct (FloatFacts.round_err (s * z)
              ((a * (1 # 20) + a * F.u * (1 # 8) + 3 * F.pow2 (-1075)) * 10))
    as (p & Hp & Hplo & Hphi); [errors ..|].
  rewrite Hp. cbn [F.add].
  destruct (FloatFacts.round_err (m + p)
              (a * (1 + 4 * F.u) + 40 * F.pow2 (-1075)))
    as (d & Hd & Hdlo & Hdhi); [errors ..|].
  exists d. split; [exact Hd|]. split; errors.
Qed.

(** Cutting toward zero a number between -1 and [n + 1] gives an integer
    from 0 to [n]. *)
Lemma trunc_range (v : Q) (n : Z) :
  (0 <= n)%Z -> (- (1) < v)%Q -> (v < inject_Z n + 1)%Q ->
  (0 <= F.trunc v <= n)%Z.
Proof.
  intros Hn Hlo Hhi.
  change (inject_Z n + 1)%Q with (inject_Z n + inject_Z 1)%Q in Hhi.
  rewrite <- inject_Z_plus in Hhi.
  destruct v as [p q]. unfold Qlt, F.trunc, inject_Z in *.
  cbn [Qnum Qden Qopp] in *.
  destruct (Z.le_gt_cases 0 p) as [Hpos|Hneg].
  - split; [apply Z.quot_pos; lia|].
    apply Z.lt_succ_r. apply Z.quot_lt_upper_bound; lia.
  - replace p with (- (- p))%Z by lia.
    rewrite Z.quot_opp_l by lia. rewrite Z.quot_small by lia. lia.
Qed.

(** [int()] returns the integer part whenever it is within the doubles'
    range. *)
Lemma int_fits {St : Type} (v : Q) (s : St) :
  DInt.fits (F.trunc v) = true ->
  exists i : DInt.t,
    Py.int (F.Num v) s = (s, Returned i) /\ DInt.to_Z i = F.trunc v.
Proof.
  intros Hfit. unfold Py.int, DInt.of_Z_opt.
  generalize (eq_refl (DInt.fits (F.trunc v))).
  generalize (DInt.fits (F.trunc v)) at 2 3.
  intros b e. destruct b.
  - eexists. split; reflexivity.
  - congruence.
Qed.

(** X20: on a cell whose [cyc_len] is between 0 and [2^51], a deviate within
    ten standard deviations of the mean gives a G1 length between 0 and
    [cyc_len], both included. *)
Theorem g1_len_within_cycle (w : World) :
  (0 <= cyc_len (self w) <= 2 ^ 51)%Z ->
  (- (10) <= gauss (np_random w) (consumed (np_random w)))%Q ->
  (gauss (np_random w) (consumed (np_random w)) <= 10)%Q ->
  exists n : DInt.t,
    Py.result (bound get_g1_len) w = Returned n /\
    (0 <= DInt.to_Z n <= cyc_len (self w))%Z.
Proof.
  intros Hlen Hlo Hhi.
  destruct (g1_draw_range (cyc_len (self w)) _ Hlen Hlo Hhi)
    as (v & Hv & Hv0 & Hv1).
  pose proof (trunc_range v (cyc_len (self w)) ltac:(lia) Hv0 Hv1) as Hrange.
  assert (Hfit : DInt.fits (F.trunc v) = true).
  { unfold DInt.fits. apply Z.leb_le.
    assert (2 ^ 51 <= F.max_int)%Z by (vm_compute; discriminate). lia. }
  unfold Py.result. rewrite get_g1_len_bound.
  replace (cyc_len (self w) <? 0)%Z with false
    by (symmetry; apply Z.ltb_ge; lia).
  unfold g1_draw. cbv zeta. rewrite Hv.
  destruct (int_fits v
              {| self := self w;
                 np_random :=
                   {| gauss := gauss (np_random w);
                      consumed := S (consumed (np_random w)) |} |} Hfit)
    as (i & Hi & Hto).
  rewrite Hi. cbn [snd]. exists i. split; [reflexivity|].
  rewrite Hto. exact Hrange.
Qed.

Lemma g1_len_within_cycle_witness :
  exists n : DInt.t,
    Py.result (bound get_g1_len) (cell_at "M" 0 24 5 1 1 1 false) = Returned n /\
    (0 <= DInt.to_Z n <= 24)%Z.
Proof.
  apply (g1_len_within_cycle (cell_at "M" 0 24 5 1 1 1 false)).
  - vm_compute. split; discriminate.
  - vm_compute. discriminate.
  - vm_compute. discriminate.
Defined.

(** Past [2^52] the roundings can carry the draw over [cyc_len]: with
    [cyc_len = 5631682336074317] and a deviate of 10, [get_g1_len] returns
    [cyc_len + 1]. *)
Lemma g1_len_exceeds_cycle :
  Py.result (bound get_g1_len)
    (with_deviate 10 (cell_at "M" 0 5631682336074317 5 1 1 1 false))
    = Returned (DInt.of_Z 5631682336074318).
Proof. vm_compute. reflexivity. Qed.

(** * A cell's life under the driver *)

(** X21: death is never undone: once [is_dead] is set, no sequence of ticks
    and hypoxia checks clears it. *)
Theorem death_is_permanent (T : CellType) (calls : list call) (w : World) :
  is_dead (self w) = true ->
  is_dead (self (drive T calls w)) = true.
Proof.
  revert w. induction calls as [|c rest IH]; intros w Hdead; [exact Hdead|].
  destruct c; cbn [drive]; apply IH.
  - pose proof (tick_frame T w) as (_ & _ & _ & _ & Hflag & _).
    rewrite Hflag. exact Hdead.
  - rewrite hypoxic_after.
    destruct (Py.Qltb (oxygen w) (hypoxia_theshold T)); [|exact Hdead].
    expose w. reflexivity.
Qed.

Lemma death_is_permanent_witness :
  is_dead
    (self (drive GenericCell [Tick; Check; Tick; Tick; Check]
             (Py.after (hypoxic_death GenericCell)
                (cell_at "G1" 3 24 12 1 (5 # 4) (1 # 5) false)))) = true.
Proof.
  apply (death_is_permanent GenericCell [Tick; Check; Tick; Tick; Check]).
  reflexivity.
Defined.

Lemma repeatedly_add (m : Py.t World unit) (a b : nat) :
  forall w : World,
    repeatedly (a + b) m w = repeatedly b m (repeatedly a m w).
Proof.
  induction a as [|a IH]; intros w; cbn [Nat.add repeatedly]; [reflexivity|].
  apply IH.
Qed.

Lemma ticks_repeatedly (T : CellType) (k : nat) :
  forall w : World,
    Py.result (ticks T k) w = Returned tt ->
    repeatedly k (do_cell_cycle T) w = Py.after (ticks T k) w.
Proof.
  induction k as [|k IH]; intros w Hres; [reflexivity|].
  unfold Py.result, Py.after in *. cbn [ticks repeatedly] in *.
  unfold Py.bind, Py.after in *.
  destruct (do_cell_cycle T w) as [w1 [[]|e]]; cbn [fst snd] in *;
    [|discriminate].
  apply IH. exact Hres.
Qed.

(** X22: the life of an unstressed cell.  Created in G1 with the counter at
    0, [g1_len = L > 0], [cyc_len = n > L + 1], its volume at the seed
    volume, oxygen above [g0_oxy_threshold] and no contact inhibition, the
    cell is in M after exactly [n] ticks: [L] in G1, [n - 1 - L] in S and
    one in G0.  It arrives with the counter at [n - 1], neither aged nor
    dead, and with the volume G1 left it: the seed volume after [L] rounded
    additions of the double [seed_vol / L], which for [L < 2^52] and a seed
    volume [s] between [L * 2^-1021] and [2^1021] is finite and within the
    relative error [tolerance L] of [s * 2]. *)
Theorem unstressed_cell_reaches_M (T : CellType) (w : World) (L n : nat) :
  (0 < L)%nat -> (L + 1 < n)%nat ->
  current_phase (self w) = "G1" ->
  current_cyc_iteration (self w) = 0%Z ->
  g1_len (self w) = Z.of_nat L ->
  cyc_len (self w) = Z.of_nat n ->
  current_vol (self w) = seed_vol (self w) ->
  inhibited w = false ->
  (g0_oxy_threshold T < oxygen w)%Q ->
  let w' := repeatedly n (do_cell_cycle T) w in
  current_phase (self w') = "M" /\
  current_cyc_iteration (self w') = (Z.of_nat n - 1)%Z /\
  current_vol (self w')
    = F.grow L (seed_vol (self w))
        (F.div (seed_vol (self w)) (F.of_int (Z.of_nat L))) /\
  (forall s : Q,
     seed_vol (self w) = F.Num s ->
     (Z.of_nat L < 2 ^ 52)%Z ->
     (inject_Z (Z.of_nat L) * F.pow2 (-1021) <= s)%Q -> (s <= F.pow2 1021)%Q ->
     exists v : Q,
       current_vol (self w') = F.Num v /\
       (Qabs (v - s * 2) <= tolerance L * (s * 2))%Q) /\
  current_age (self w') = current_age (self w) /\
  is_dead (self w') = is_dead (self w).
Proof.
  intros HL Hn Hph Hit Hgl Hcl Hvol Hinh Hox w'. subst w'.
  assert (Hcalm : stressed T w = false).
  { unfold stressed. rewrite Hinh, orb_false_r. apply Qltb_false.
    intros Hlow. exact (Qlt_irrefl _ (Qlt_trans _ _ _ Hlow Hox)). }
  destruct (g1_run T w L HL Hph Hit Hgl Hvol)
    as (Hres & Hph1 & Hit1 & Hvol1 & _ & Htol1).
  rewrite Hcalm in Hph1.
  pose proof (ticks_frame T L w)
    as (Hsv1 & Hcl1 & Hgl1 & Hage1 & Hdead1 & Hsub1 & Hinh1 & _).
  rewrite <- (ticks_repeatedly T L w Hres) in *.
  set (w1 := repeatedly L (do_cell_cycle T) w) in *.
  replace (repeatedly n (do_cell_cycle T) w)
    with (repeatedly (L + (n - 1 - L) + 1) (do_cell_cycle T) w)
    by (f_equal; lia).
  rewrite !repeatedly_add. fold w1.
  destruct (s_run T (n - 1 - L) w1 Hph1 ltac:(lia) ltac:(lia)) as [Hs _].
  rewrite Hs. cbn [repeatedly]. unfold Py.after.
  rewrite g0_tick by (destruct w1 as [[] ?]; reflexivity).
  assert (Hclear :
            negb (inhibited
                    (with_self
                       (set_current_phase "G0"
                          (set_current_cyc_iteration (cyc_len (self w1) - 1)
                             (self w1))) w1))
            && Py.Qltb (g0_oxy_threshold T)
                 (oxygen
                    (with_self
                       (set_current_phase "G0"
                          (set_current_cyc_iteration (cyc_len (self w1) - 1)
                             (self w1))) w1)) = true).
  { unfold inhibited, oxygen in *. destruct w1 as [[b1 ? ? ? ? ? ? ? ?] ?].
    cbn in *. rewrite Hinh1, Hsub1, Hinh. apply Qltb_true in Hox.
    rewrite Hox. reflexivity. }
  rewrite Hclear. cbn [fst].
  destruct w1 as [[b1 sv1 cv1 [cl1 Hfcl1] [gl1 Hfgl1] ph1 it1 age1 dead1] r1].
  unfold cyc_len, g1_len in *.
  cbn [self with_self set_current_phase set_current_cyc_iteration
       cell_body seed_vol current_vol cyc_len_int g1_len_int DInt.to_Z
       current_phase current_cyc_iteration current_age is_dead] in *.
  rewrite Hcl1, Hgl1, Hcl, Hgl.
  replace (Z.of_nat n - 1 =? Z.of_nat L)%Z with false
    by (symmetry; apply Z.eqb_neq; lia).
  cbn [self with_self set_current_phase set_current_cyc_iteration
       cell_body seed_vol current_vol cyc_len_int g1_len_int DInt.to_Z
       current_phase current_cyc_iteration current_age is_dead].
  repeat split; assumption.
Qed.

Lemma unstressed_cell_reaches_M_witness :
  current_phase
    (self (repeatedly 24 (do_cell_cycle GenericCell)
             (cell_at "G1" 0 24 12 10 10 1 false))) = "M".
Proof.
  apply (unstressed_cell_reaches_M GenericCell
           (cell_at "G1" 0 24 12 10 10 1 false) 12 24);
    try reflexivity; lia.
Defined.
